(** * GLOVE: shader entry points of the GL context (contextShader.cpp)

    A shallow embedding of the entry points of [Context] that resolve,
    delete, compile and query shaders, and of the compiler binding.  The
    context is a record that is passed in and handed back by every entry
    point; a pointer to a shader is the key of the shader in the resource
    manager's shader array; the memory behind a caller's [char *] is a
    function from offsets to bytes; a caller's [GLsizei *] that may be
    null is an optional slot ([None] is the null pointer), one that is
    dereferenced unchecked is the content of the slot.  ShaderBinary,
    which is not implemented, is not part of the development. *)

From Stdlib Require Import ZArith NArith List Lia Bool Strings.Byte.
From stdpp Require Import base decidable option functions gmap sets list.

Open Scope Z_scope.

(** ** GL scalar types and enumerants *)

Definition GLenum := Z.
Definition GLint := Z.
Definition GLsizei := Z.
Definition GLuint := N.
Bind Scope N_scope with GLuint.

(** Values of GLES2/gl2.h. *)
Definition GL_FALSE : GLint := 0.
Definition GL_TRUE : GLint := 1.
Definition GL_INVALID_ENUM : GLenum := 0x0500.
Definition GL_INVALID_VALUE : GLenum := 0x0501.
Definition GL_INVALID_OPERATION : GLenum := 0x0502.
Definition GL_FRAGMENT_SHADER : GLenum := 0x8B30.
Definition GL_VERTEX_SHADER : GLenum := 0x8B31.
Definition GL_SHADER_TYPE : GLenum := 0x8B4F.
Definition GL_DELETE_STATUS : GLenum := 0x8B80.
Definition GL_COMPILE_STATUS : GLenum := 0x8B81.
Definition GL_INFO_LOG_LENGTH : GLenum := 0x8B84.
Definition GL_SHADER_SOURCE_LENGTH : GLenum := 0x8B88.
Definition GL_LOW_FLOAT : GLenum := 0x8DF0.
Definition GL_MEDIUM_FLOAT : GLenum := 0x8DF1.
Definition GL_HIGH_FLOAT : GLenum := 0x8DF2.
Definition GL_LOW_INT : GLenum := 0x8DF3.
Definition GL_MEDIUM_INT : GLenum := 0x8DF4.
Definition GL_HIGH_INT : GLenum := 0x8DF5.

(** ** Caller memory *)

(** The bytes behind a [char *], indexed by offset from the pointer. *)
Abbreviation CharBuf := (Z → byte).

(** [memcpy_at dst off src] stores the bytes of [src] at offsets
    [off], [off + 1], ... of [dst]. *)
Fixpoint memcpy_at (dst : CharBuf) (off : Z) (src : list byte) : CharBuf :=
  match src with
  | [] => dst
  | b :: rest => memcpy_at (<[off := b]> dst) (off + 1) rest
  end.

(** [memcpy(dst, src, n)]: the first [n] bytes of the array [src]. *)
Definition memcpy (dst : CharBuf) (src : list byte) (n : Z) : CharBuf :=
  memcpy_at dst 0 (take (Z.to_nat n) src).

(** The first [n] bytes behind the pointer, for display. *)
Definition peek (buf : CharBuf) (n : nat) : list byte :=
  map (λ i, buf (Z.of_nat i)) (seq 0 n).

(** ** Shader objects *)

Inductive shader_type_t := SHADER_TYPE_VERTEX | SHADER_TYPE_FRAGMENT.

(** Address of a compiler instance. *)
Definition CompilerPtr := nat.

(** Modelled from the spec: class Shader (shader.h, shader.cpp) is not
    among the sources; its attributes are those of the spec's data model.
    [refCount] is the number of programs that hold the shader attached. *)
Record Shader := mkShader {
  shaderKind : shader_type_t;
  sourceText : option (list byte);
  infoLog : option (list byte);
  isCompiled : bool;
  markedForDeletion : bool;
  refCount : nat;
  compilerRef : option CompilerPtr
}.

(** Modelled from the spec: class ShaderProgram; only its compiler
    reference matters to the shader entry points. *)
Record ShaderProgram := mkShaderProgram {
  programCompilerRef : option CompilerPtr
}.

(** A C string: the characters followed by the terminator. *)
Definition c_str (s : list byte) : list byte := s ++ [Byte.x00].

(** Modelled from the spec: the accessors of Shader, which the entry
    points call.  Lengths include the terminator and are taken to fit a
    GLint; FreeForDeletion is "marked for deletion and attached to no
    program". *)
Definition HasSource (s : Shader) : bool := bool_decide (is_Some (sourceText s)).
Definition IsCompiled (s : Shader) : bool := isCompiled s.
Definition GetMarkForDeletion (s : Shader) : bool := markedForDeletion s.
Definition GetShaderType (s : Shader) : shader_type_t := shaderKind s.
Definition GetInfoLog (s : Shader) : option (list byte) := c_str <$> infoLog s.
Definition Shader_GetShaderSource (s : Shader) : option (list byte) := c_str <$> sourceText s.
Definition GetInfoLogLength (s : Shader) : GLint :=
  match infoLog s with Some l => Z.of_nat (length l) + 1 | None => 0 end.
Definition GetShaderSourceLength (s : Shader) : GLint :=
  match sourceText s with Some l => Z.of_nat (length l) + 1 | None => 0 end.
Definition FreeForDeletion (s : Shader) : bool :=
  markedForDeletion s && Nat.eqb (refCount s) 0.

Definition SetMarkForDeletion (b : bool) (s : Shader) : Shader :=
  mkShader (shaderKind s) (sourceText s) (infoLog s) (isCompiled s) b
           (refCount s) (compilerRef s).
Definition SetShaderCompiler (c : option CompilerPtr) (s : Shader) : Shader :=
  mkShader (shaderKind s) (sourceText s) (infoLog s) (isCompiled s)
           (markedForDeletion s) (refCount s) c.
(** Modelled from the spec: Shader::CompileShader, given the back end
    [compile]: nothing happens without a compiler or without source text;
    otherwise the back end runs on the source text, and its info log and
    success flag are stored. *)
Definition Shader_CompileShader
    (compile : shader_type_t → list byte → bool * list byte) (s : Shader) : Shader :=
  match compilerRef s, sourceText s with
  | Some _, Some src =>
      let '(ok, log) := compile (shaderKind s) src in
      mkShader (shaderKind s) (sourceText s) (Some log) ok
               (markedForDeletion s) (refCount s) (compilerRef s)
  | _, _ => s
  end.
Definition SetProgramShaderCompiler (c : option CompilerPtr) (p : ShaderProgram)
  : ShaderProgram := mkShaderProgram c.

(** ** Resource manager *)

Inductive shadingNamespaceType_t := SHADER_ID | SHADER_PROGRAM_ID.

Global Instance shadingNamespaceType_eq_dec : EqDecision shadingNamespaceType_t.
Proof. solve_decision. Defined.

Record ShadingNamespace_t := mkShadingNamespace {
  type : shadingNamespaceType_t;
  arrayIndex : GLuint
}.

(** Modelled from the spec: class ResourceManager (resourceManager.h) is
    not among the sources.  The shading-object pool maps a handle to its
    namespace entry, the two object arrays map a storage index to the
    object stored there, and the purge list is the set of shaders that are
    marked for deletion and still referenced. *)
Record ResourceManager := mkResourceManager {
  mShaderArray : gmap GLuint Shader;
  mShaderProgramArray : gmap GLuint ShaderProgram;
  mShadingObjectPool : gmap GLuint ShadingNamespace_t;
  mShadingObjectCount : GLuint;
  mPurgeListShader : gset GLuint
}.

Definition GetShadingObjectCount (rm : ResourceManager) : GLuint :=
  mShadingObjectCount rm.
Definition ShadingObjectExists (h : GLuint) (rm : ResourceManager) : bool :=
  bool_decide (is_Some (mShadingObjectPool rm !! h)).
Definition GetShadingObject (h : GLuint) (rm : ResourceManager)
  : option ShadingNamespace_t := mShadingObjectPool rm !! h.
(** A [Shader *] is the key of the shader in the shader array; the null
    pointer is [None]. *)
Definition GetShader (i : GLuint) (rm : ResourceManager) : option GLuint :=
  if bool_decide (is_Some (mShaderArray rm !! i)) then Some i else None.
Definition EraseShadingObject (h : GLuint) (rm : ResourceManager) : ResourceManager :=
  mkResourceManager (mShaderArray rm) (mShaderProgramArray rm)
    (delete h (mShadingObjectPool rm)) (mShadingObjectCount rm)
    (mPurgeListShader rm).
Definition DeallocateShader (p : GLuint) (rm : ResourceManager) : ResourceManager :=
  mkResourceManager (delete p (mShaderArray rm)) (mShaderProgramArray rm)
    (mShadingObjectPool rm) (mShadingObjectCount rm) (mPurgeListShader rm).
Definition AddToPurgeList (p : GLuint) (rm : ResourceManager) : ResourceManager :=
  mkResourceManager (mShaderArray rm) (mShaderProgramArray rm)
    (mShadingObjectPool rm) (mShadingObjectCount rm)
    ({[p]} ∪ mPurgeListShader rm).
(** A method call through a [Shader *]. *)
Definition updShader (f : Shader → Shader) (p : GLuint) (rm : ResourceManager)
  : ResourceManager :=
  mkResourceManager (alter f p (mShaderArray rm)) (mShaderProgramArray rm)
    (mShadingObjectPool rm) (mShadingObjectCount rm) (mPurgeListShader rm).
(** Modelled from the spec: ResourceManager::IsShadingObject, "true iff
    handle resolves with kind SHADER"; zero never resolves, and an entry
    whose storage index is 0 is invalid. *)
Definition IsShadingObject (h : GLuint) (t : shadingNamespaceType_t)
    (rm : ResourceManager) : bool :=
  match mShadingObjectPool rm !! h with
  | Some e =>
      negb (N.eqb h 0) && N.ltb h (mShadingObjectCount rm)
      && negb (N.eqb (arrayIndex e) 0) && bool_decide (type e = t)
  | None => false
  end.

(** ** The context *)

(** The two floating-point expressions of GetShaderPrecisionFormat,
    [floor(log2(abs(numeric_limits<float>::max())))] and
    [floor(-log2(numeric_limits<float>::epsilon()))], each cast to GLint.
    The C++ library evaluates them in floating point; their values are
    taken as given. *)
Class FloatLimits := {
  float_max_log2 : GLint;
  float_epsilon_log2 : GLint
}.

(** [std::numeric_limits<T>::max()] of a signed integer type of [bits]
    bits, and [floor(log2(abs(max)))] of it. *)
Definition numeric_limits_max (bits : Z) : Z := 2 ^ (bits - 1) - 1.
Definition int_max_log2 (bits : Z) : GLint := Z.log2 (Z.abs (numeric_limits_max bits)).

(** The collaborators that the shader entry points call but that are
    designed elsewhere: the rendering-submission side (write framebuffer,
    command buffers), which is only asked whether a draw is under way and
    flushed, and the compiler back end, from shader kind and source text
    to success flag and info log. *)
Class Backend := {
  VkState : Type;
  IsInDrawState : VkState → bool;
  Flush : VkState → VkState;
  glslang : shader_type_t → list byte → bool * list byte
}.

Section ContextShader.

Context {backend : Backend}.

(** Modelled from the spec: the members of class Context (context.h)
    that contextShader.cpp touches.  [mErrors] is the last-error slot
    with its history, most recent first; [mCompilerSupport] is what
    GetBooleanv(GL_SHADER_COMPILER) reports; [mNextCompiler] is the
    address the next [new GlslangShaderCompiler()] returns. *)
Record Context := mkContext {
  mResourceManager : ResourceManager;
  mShaderCompiler : option CompilerPtr;
  mNextCompiler : CompilerPtr;
  mCompilerSupport : bool;
  mErrors : list GLenum;
  mWriteFBO : VkState
}.

Definition withResourceManager (rm : ResourceManager) (ctx : Context) : Context :=
  mkContext rm (mShaderCompiler ctx) (mNextCompiler ctx) (mCompilerSupport ctx)
            (mErrors ctx) (mWriteFBO ctx).
Definition withWriteFBO (vk : VkState) (ctx : Context) : Context :=
  mkContext (mResourceManager ctx) (mShaderCompiler ctx) (mNextCompiler ctx)
            (mCompilerSupport ctx) (mErrors ctx) vk.

(** Modelled from the spec: Context::RecordError. *)
Definition RecordError (e : GLenum) (ctx : Context) : Context :=
  mkContext (mResourceManager ctx) (mShaderCompiler ctx) (mNextCompiler ctx)
            (mCompilerSupport ctx) (e :: mErrors ctx) (mWriteFBO ctx).

(** The error that glGetError would report last. *)
Definition lastError (ctx : Context) : option GLenum := head (mErrors ctx).

(** Everything of the context but the error slot. *)
Definition sameButErrors (a b : Context) : Prop :=
  mResourceManager a = mResourceManager b
  ∧ mShaderCompiler a = mShaderCompiler b
  ∧ mNextCompiler a = mNextCompiler b
  ∧ mCompilerSupport a = mCompilerSupport b
  ∧ mWriteFBO a = mWriteFBO b.

(** Dereference of a [Shader *]. *)
Definition shaderAt (p : GLuint) (ctx : Context) : option Shader :=
  mShaderArray (mResourceManager ctx) !! p.

(** Context::HasShaderCompiler *)
Definition HasShaderCompiler (ctx : Context) : bool * Context :=
  let compilerSupport := mCompilerSupport ctx in
  if negb compilerSupport then (false, RecordError GL_INVALID_OPERATION ctx)
  else (true, ctx).

(** Context::GetShaderPtr *)
Definition GetShaderPtr (shader : GLuint) (ctx : Context) : option GLuint * Context :=
  let rm := mResourceManager ctx in
  if N.eqb shader 0 || N.leb (GetShadingObjectCount rm) shader
     || negb (ShadingObjectExists shader rm)
  then (None, RecordError GL_INVALID_VALUE ctx)
  else
    match GetShadingObject shader rm with
    | None => (None, ctx)
    | Some shadId =>
        if N.eqb (arrayIndex shadId) 0 || negb (bool_decide (type shadId = SHADER_ID))
        then (None, RecordError GL_INVALID_OPERATION ctx)
        else (GetShader (arrayIndex shadId) rm, ctx)
    end.

(** Context::IsShader *)
Definition IsShader (shader : GLuint) (ctx : Context) : bool * Context :=
  (IsShadingObject shader SHADER_ID (mResourceManager ctx), ctx).

(** Context::DeleteShader; the current context, whose resource manager
    receives the shader for its purge list, is this context. *)
Definition DeleteShader (shader : GLuint) (ctx : Context) : Context :=
  if N.eqb shader 0 then ctx
  else
    let '(shaderPtr, ctx) := GetShaderPtr shader ctx in
    match shaderPtr with
    | None => ctx
    | Some p =>
        let ctx := withResourceManager
                     (updShader (SetMarkForDeletion true) p (mResourceManager ctx)) ctx in
        match shaderAt p ctx with
        | None => ctx
        | Some s =>
            if FreeForDeletion s then
              let ctx := if IsInDrawState (mWriteFBO ctx)
                         then withWriteFBO (Flush (mWriteFBO ctx)) ctx else ctx in
              let ctx := withResourceManager
                           (EraseShadingObject shader (mResourceManager ctx)) ctx in
              withResourceManager (DeallocateShader p (mResourceManager ctx)) ctx
            else
              withResourceManager (AddToPurgeList p (mResourceManager ctx)) ctx
        end
    end.

(** Context::GetShaderiv; [params] is the content of the caller's slot
    before the call, the first component of the result its content after. *)
Definition GetShaderiv (shader : GLuint) (pname : GLenum) (params : GLint)
    (ctx : Context) : GLint * Context :=
  let '(shaderPtr, ctx) := GetShaderPtr shader ctx in
  match shaderPtr ≫= (λ p, shaderAt p ctx) with
  | None => (params, ctx)
  | Some s =>
      let '(params, ctx) :=
        if Z.eqb pname GL_COMPILE_STATUS then
          (if IsCompiled s then GL_TRUE else GL_FALSE, ctx)
        else if Z.eqb pname GL_DELETE_STATUS then
          (if GetMarkForDeletion s then GL_TRUE else GL_FALSE, ctx)
        else if Z.eqb pname GL_INFO_LOG_LENGTH then (GetInfoLogLength s, ctx)
        else if Z.eqb pname GL_SHADER_SOURCE_LENGTH then (GetShaderSourceLength s, ctx)
        else if Z.eqb pname GL_SHADER_TYPE then
          (match GetShaderType s with
           | SHADER_TYPE_FRAGMENT => GL_FRAGMENT_SHADER
           | SHADER_TYPE_VERTEX => GL_VERTEX_SHADER
           end, ctx)
        else (params, RecordError GL_INVALID_ENUM ctx) in
      let '(_, ctx) := HasShaderCompiler ctx in
      (params, ctx)
  end.

(** What a string query leaves behind: the caller's length slot, the
    caller's buffer and the context. *)
Record StringQuery := mkStringQuery {
  outLength : option GLsizei;
  outBuffer : CharBuf;
  outContext : Context
}.

(** The length that [std::max(std::min(bufsize, len) - 1, 0)] yields. *)
Definition returnedLen (bufsize : GLsizei) (len : GLint) : GLint :=
  Z.max (Z.min bufsize len - 1) 0.

(** The lines that GetShaderInfoLog and GetShaderSource share, from the
    computation of [returnedLen] to the store of the terminator; [src] is
    the string with its terminator and [len] its length. *)
Definition copyOut (src : list byte) (len : GLint) (bufsize : GLsizei)
    (length : option GLsizei) (dst : CharBuf) : option GLsizei * CharBuf :=
  let returnedLen := returnedLen bufsize len in
  let length := match length with Some _ => Some returnedLen | None => None end in
  if negb (Z.eqb returnedLen 0) then
    let dst := memcpy dst src returnedLen in
    (length, <[returnedLen := Byte.x00]> dst)
  else
    let dst := memcpy dst src 1 in
    (length, <[0 := Byte.x00]> dst).

(** Context::GetShaderInfoLog *)
Definition GetShaderInfoLog (shader : GLuint) (bufsize : GLsizei)
    (length : option GLsizei) (infolog : CharBuf) (ctx : Context) : StringQuery :=
  if Z.ltb bufsize 0 then
    mkStringQuery length infolog (RecordError GL_INVALID_VALUE ctx)
  else
    let '(shaderPtr, ctx) := GetShaderPtr shader ctx in
    match shaderPtr ≫= (λ p, shaderAt p ctx) with
    | None => mkStringQuery length infolog ctx
    | Some s =>
        match GetInfoLog s with
        | Some log =>
            let '(length, infolog) :=
              copyOut log (GetInfoLogLength s) bufsize length infolog in
            mkStringQuery length infolog ctx
        | None =>
            mkStringQuery (match length with Some _ => Some 0 | None => None end)
                          infolog ctx
        end
    end.

(** Context::GetShaderSource *)
Definition GetShaderSource (shader : GLuint) (bufsize : GLsizei)
    (length : option GLsizei) (source : CharBuf) (ctx : Context) : StringQuery :=
  if Z.ltb bufsize 0 then
    mkStringQuery length source (RecordError GL_INVALID_VALUE ctx)
  else
    let '(shaderPtr, ctx) := GetShaderPtr shader ctx in
    match shaderPtr ≫= (λ p, shaderAt p ctx) with
    | None => mkStringQuery length source ctx
    | Some s =>
        match Shader_GetShaderSource s with
        | None => mkStringQuery length source ctx
        | Some src =>
            let '(length, source) :=
              copyOut src (GetShaderSourceLength s) bufsize length source in
            mkStringQuery length source ctx
        end
    end.

(** Context::ReleaseShaderCompiler *)
Definition ReleaseShaderCompiler (ctx : Context) : Context :=
  let '(ok, ctx) := HasShaderCompiler ctx in
  if negb ok then ctx
  else
    match mShaderCompiler ctx with
    | Some _ =>
        mkContext (mResourceManager ctx) None (mNextCompiler ctx)
                  (mCompilerSupport ctx) (mErrors ctx) (mWriteFBO ctx)
    | None => ctx
    end.

(** Context::CreateShaderCompiler; the two loops over the object arrays
    are the two maps over them. *)
Definition CreateShaderCompiler (ctx : Context) : Context :=
  match mShaderCompiler ctx with
  | None =>
      let new_compiler := mNextCompiler ctx in
      let rm := mResourceManager ctx in
      mkContext
        (mkResourceManager
           (SetShaderCompiler (Some new_compiler) <$> mShaderArray rm)
           (SetProgramShaderCompiler (Some new_compiler) <$> mShaderProgramArray rm)
           (mShadingObjectPool rm) (mShadingObjectCount rm) (mPurgeListShader rm))
        (Some new_compiler) (S new_compiler)
        (mCompilerSupport ctx) (mErrors ctx) (mWriteFBO ctx)
  | Some _ => ctx
  end.

(** Context::CompileShader *)
Definition CompileShader (shader : GLuint) (ctx : Context) : Context :=
  let '(ok, ctx) := HasShaderCompiler ctx in
  if negb ok then ctx
  else
    let '(shaderPtr, ctx) := GetShaderPtr shader ctx in
    match shaderPtr with
    | None => ctx
    | Some p =>
        match shaderAt p ctx with
        | None => ctx
        | Some s =>
            if negb (HasSource s) then ctx
            else
              let ctx := CreateShaderCompiler ctx in
              withResourceManager
                (updShader (Shader_CompileShader glslang) p (mResourceManager ctx)) ctx
        end
    end.

(** What a precision query leaves behind: the caller's [range[2]], the
    caller's [precision] slot and the context. *)
Record PrecisionQuery := mkPrecisionQuery {
  outRange : GLint * GLint;
  outPrecision : GLint;
  outPrecisionContext : Context
}.

(** Context::GetShaderPrecisionFormat; [short] and [int16_t] have 16
    bits, [int32_t] has 32. *)
Definition GetShaderPrecisionFormat `{FloatLimits} (shadertype precisiontype : GLenum)
    (range : GLint * GLint) (precision : GLint) (ctx : Context) : PrecisionQuery :=
  let '(ok, ctx) := HasShaderCompiler ctx in
  if negb ok then mkPrecisionQuery range precision ctx
  else if negb (Z.eqb shadertype GL_VERTEX_SHADER)
          && negb (Z.eqb shadertype GL_FRAGMENT_SHADER)
  then mkPrecisionQuery range precision (RecordError GL_INVALID_ENUM ctx)
  else if Z.eqb precisiontype GL_LOW_FLOAT then
    mkPrecisionQuery (float_max_log2, float_max_log2) float_epsilon_log2 ctx
  else if Z.eqb precisiontype GL_MEDIUM_FLOAT then
    mkPrecisionQuery (float_max_log2, float_max_log2) float_epsilon_log2 ctx
  else if Z.eqb precisiontype GL_HIGH_FLOAT then
    mkPrecisionQuery (float_max_log2, float_max_log2) float_epsilon_log2 ctx
  else if Z.eqb precisiontype GL_LOW_INT then
    mkPrecisionQuery (int_max_log2 16, int_max_log2 16) 0 ctx
  else if Z.eqb precisiontype GL_MEDIUM_INT then
    mkPrecisionQuery (int_max_log2 16, int_max_log2 16) 0 ctx
  else if Z.eqb precisiontype GL_HIGH_INT then
    mkPrecisionQuery (int_max_log2 32, int_max_log2 32) 0 ctx
  else mkPrecisionQuery range precision (RecordError GL_INVALID_ENUM ctx).

End ContextShader.

Arguments Context {backend}.

(** ** Contracts

    The three ways in which a handle is not a registered one. *)
Definition unregistered (h : GLuint) (rm : ResourceManager) : Prop :=
  h = 0%N ∨ (mShadingObjectCount rm ≤ h)%N ∨ mShadingObjectPool rm !! h = None.

(** The buffer-return contract of a string query that found the string
    [str] and returns [n] characters of it: the characters are at offsets
    0 to n - 1 of the buffer, the terminator is at offset n, every other
    byte is as the caller left it, the length slot (if there is one) holds
    n, and the context is as it was. *)
Definition returned `{Backend} (str : list byte) (n : Z) (length : option GLsizei)
    (buf : CharBuf) (ctx : Context) (r : StringQuery) : Prop :=
  (∀ i, 0 ≤ i < n → str !! Z.to_nat i = Some (outBuffer r i))
  ∧ outBuffer r n = Byte.x00
  ∧ (∀ i, i < 0 ∨ n < i → outBuffer r i = buf i)
  ∧ outLength r = match length with Some _ => Some n | None => None end
  ∧ outContext r = ctx.

(** A string query called with [bufsize] keeps within the buffer when
    every byte from offset [bufsize] on is as the caller left it, and has
    terminated what it wrote when there is a terminator within the first
    [bufsize] bytes. *)
Definition withinBufsize `{Backend} (bufsize : GLsizei) (buf : CharBuf)
    (r : StringQuery) : Prop :=
  ∀ i, bufsize ≤ i → outBuffer r i = buf i.
Definition terminatedWithin `{Backend} (bufsize : GLsizei) (r : StringQuery) : Prop :=
  ∃ i, 0 ≤ i < bufsize ∧ outBuffer r i = Byte.x00.

(** The selectors of the precision query. *)
Definition floatPrecisions : list GLenum := [GL_LOW_FLOAT; GL_MEDIUM_FLOAT; GL_HIGH_FLOAT].
Definition intPrecisions : list GLenum := [GL_LOW_INT; GL_MEDIUM_INT; GL_HIGH_INT].

(** ** A concrete context

    A vertex shader with source text and info log behind handle 1, a
    program behind handle 2, and behind handle 3 a fragment shader without
    source text or info log that a program holds attached. *)

Definition exampleBackend : Backend :=
  {| VkState := bool; IsInDrawState := id; Flush := λ _, false;
     glslang := λ _ _, (true, []) |}.

Definition exampleFloatLimits : FloatLimits :=
  {| float_max_log2 := 128; float_epsilon_log2 := 23 |}.

Definition exVertex : Shader :=
  mkShader SHADER_TYPE_VERTEX (Some ["a"; "b"; "c"]%byte) (Some ["e"; "r"; "r"]%byte)
           false false 0%nat None.

Definition exFragment : Shader :=
  mkShader SHADER_TYPE_FRAGMENT None None false false 1%nat None.

Definition exResources : ResourceManager :=
  mkResourceManager
    {[ 1%N := exVertex; 2%N := exFragment ]}
    {[ 1%N := mkShaderProgram None ]}
    {[ 1%N := mkShadingNamespace SHADER_ID 1%N;
       2%N := mkShadingNamespace SHADER_PROGRAM_ID 1%N;
       3%N := mkShadingNamespace SHADER_ID 2%N ]}
    4%N ∅.

Definition exContext : Context (backend := exampleBackend) :=
  @mkContext exampleBackend exResources None 0%nat true [] false.

(** The same context without compiler support. *)
Definition exContextNoCompiler : Context (backend := exampleBackend) :=
  @mkContext exampleBackend exResources None 0%nat false [] false.

(** A caller's buffer filled with the character x. *)
Definition exBuffer : CharBuf := λ _, "x"%byte.

(** ** The other entry points

    Shader::SetShaderType, as the other setters of Shader. *)
Definition SetShaderType (t : shader_type_t) (s : Shader) : Shader :=
  mkShader t (sourceText s) (infoLog s) (isCompiled s)
           (markedForDeletion s) (refCount s) (compilerRef s).

Section ContextShaderRest.

Context {backend : Backend}.

(** Context::ShaderSource.  [string] holds the bytes behind each of the
    caller's fragment pointers and [length] the caller's array of lengths
    ([None] is the null pointer); Shader::SetShaderSource, which is not
    among the sources, is the parameter [SetShaderSource]. *)
Definition ShaderSource
    (SetShaderSource : GLsizei → list (list byte) → option (list GLint) → Shader → Shader)
    (shader : GLuint) (count : GLsizei) (string : list (list byte))
    (length : option (list GLint)) (ctx : Context) : Context :=
  let '(ok, ctx) := HasShaderCompiler ctx in
  if negb ok then ctx
  else
    let '(shaderPtr, ctx) := GetShaderPtr shader ctx in
    match shaderPtr with
    | None => ctx
    | Some p =>
        if Z.ltb count 0 then RecordError GL_INVALID_VALUE ctx
        else
          withResourceManager
            (updShader (SetShaderSource count string length) p (mResourceManager ctx)) ctx
    end.

(** Context::CreateShader.  ResourceManager::AllocateShader and
    ResourceManager::PushShadingObject, which are not among the sources,
    are the parameters [AllocateShader] and [PushShadingObject]; each
    returns its result and the resource manager it leaves.  The result is
    [None] when the pointer that GetShader returns for the allocated index
    is null, which the code dereferences unchecked.  SetVkContext stores
    the back-reference to the Vulkan context, which [Shader] does not
    carry. *)
Definition CreateShader
    (AllocateShader : ResourceManager → GLuint * ResourceManager)
    (PushShadingObject : ShadingNamespace_t → ResourceManager → GLuint * ResourceManager)
    (type : GLenum) (ctx : Context) : option (GLuint * Context) :=
  if negb (Z.eqb type GL_VERTEX_SHADER) && negb (Z.eqb type GL_FRAGMENT_SHADER)
  then Some (0%N, RecordError GL_INVALID_ENUM ctx)
  else
    let '(res, rm) := AllocateShader (mResourceManager ctx) in
    match GetShader res rm with
    | None => None
    | Some shader =>
        let rm := updShader
                    (SetShaderType (if Z.eqb type GL_VERTEX_SHADER
                                    then SHADER_TYPE_VERTEX else SHADER_TYPE_FRAGMENT))
                    shader rm in
        let rm := updShader (SetShaderCompiler (mShaderCompiler ctx)) shader rm in
        let '(h, rm) := PushShadingObject (mkShadingNamespace SHADER_ID res) rm in
        Some (h, withResourceManager rm ctx)
    end.

End ContextShaderRest.

(** ** Sequences of calls

    A call of one of the entry points that need no parameter of the
    resource manager or of Shader, with its arguments. *)
Inductive Call :=
  | CallCompileShader (shader : GLuint)
  | CallDeleteShader (shader : GLuint)
  | CallGetShaderiv (shader : GLuint) (pname : GLenum) (params : GLint)
  | CallGetShaderInfoLog (shader : GLuint) (bufsize : GLsizei)
      (length : option GLsizei) (infolog : CharBuf)
  | CallGetShaderSource (shader : GLuint) (bufsize : GLsizei)
      (length : option GLsizei) (source : CharBuf)
  | CallGetShaderPrecisionFormat (shadertype precisiontype : GLenum)
      (range : GLint * GLint) (precision : GLint)
  | CallIsShader (shader : GLuint)
  | CallReleaseShaderCompiler
  | CallCreateShaderCompiler.

Section Sequences.

Context {backend : Backend} {limits : FloatLimits}.

(** The context that a call leaves. *)
Definition run (c : Call) (ctx : Context) : Context :=
  match c with
  | CallCompileShader shader => CompileShader shader ctx
  | CallDeleteShader shader => DeleteShader shader ctx
  | CallGetShaderiv shader pname params => (GetShaderiv shader pname params ctx).2
  | CallGetShaderInfoLog shader bufsize length infolog =>
      outContext (GetShaderInfoLog shader bufsize length infolog ctx)
  | CallGetShaderSource shader bufsize length source =>
      outContext (GetShaderSource shader bufsize length source ctx)
  | CallGetShaderPrecisionFormat shadertype precisiontype range precision =>
      outPrecisionContext
        (GetShaderPrecisionFormat shadertype precisiontype range precision ctx)
  | CallIsShader shader => (IsShader shader ctx).2
  | CallReleaseShaderCompiler => ReleaseShaderCompiler ctx
  | CallCreateShaderCompiler => CreateShaderCompiler ctx
  end.

(** The context that a sequence of calls leaves, first call first. *)
Definition runAll (calls : list Call) (ctx : Context) : Context :=
  fold_left (λ ctx c, run c ctx) calls ctx.

(** While the context has a compiler, every shader and every program
    refers to it. *)
Definition liveCompilerBound (ctx : Context) : Prop :=
  ∀ c, mShaderCompiler ctx = Some c →
    (∀ i s, mShaderArray (mResourceManager ctx) !! i = Some s → compilerRef s = Some c)
    ∧ (∀ i g, mShaderProgramArray (mResourceManager ctx) !! i = Some g →
              programCompilerRef g = Some c).

End Sequences.

(** Every shader entry of the pool with a storage index other than 0
    leads to a shader of the shader array, and no two handles lead to the
    same one. *)
Definition namespaceSound (rm : ResourceManager) : Prop :=
  (∀ h e, mShadingObjectPool rm !! h = Some e → type e = SHADER_ID →
          arrayIndex e ≠ 0%N → is_Some (mShaderArray rm !! arrayIndex e))
  ∧ (∀ h1 h2 e1 e2,
       mShadingObjectPool rm !! h1 = Some e1 → mShadingObjectPool rm !! h2 = Some e2 →
       type e1 = SHADER_ID → type e2 = SHADER_ID →
       arrayIndex e1 = arrayIndex e2 → arrayIndex e1 ≠ 0%N → h1 = h2).

(** What a sequence of calls may have done to a shader [s] that has
    become [s']: kind, source text and reference count are the same, and
    a mark for deletion is still there. *)
Definition sameShaderLater (s s' : Shader) : Prop :=
  shaderKind s' = shaderKind s
  ∧ refCount s' = refCount s
  ∧ sourceText s' = sourceText s
  ∧ (markedForDeletion s = true → markedForDeletion s' = true).

(** What a sequence of calls may have done to the resource manager [rm]
    that has become [rm']: every handle and every shader of [rm'] was
    there in [rm], the shader as the same shader later; the programs are
    at the same indices; the count is the same; and the purge list has
    lost nothing. *)
Definition laterResources (rm rm' : ResourceManager) : Prop :=
  (∀ h e, mShadingObjectPool rm' !! h = Some e → mShadingObjectPool rm !! h = Some e)
  ∧ (∀ p s', mShaderArray rm' !! p = Some s' →
             ∃ s, mShaderArray rm !! p = Some s ∧ sameShaderLater s s')
  ∧ (∀ i, is_Some (mShaderProgramArray rm' !! i) ↔ is_Some (mShaderProgramArray rm !! i))
  ∧ mShadingObjectCount rm' = mShadingObjectCount rm
  ∧ mPurgeListShader rm ⊆ mPurgeListShader rm'.

(** What CreateShader relies on: the allocation returns a storage index
    other than 0 at which the shader array then holds a shader, and the
    registration returns a handle other than 0 and below the count, under
    which the pool then holds the entry, and leaves the shader array
    alone. *)
Definition allocatorContract
    (AllocateShader : ResourceManager → GLuint * ResourceManager)
    (PushShadingObject : ShadingNamespace_t → ResourceManager → GLuint * ResourceManager)
  : Prop :=
  (∀ rm res rm', AllocateShader rm = (res, rm') →
     res ≠ 0%N ∧ is_Some (mShaderArray rm' !! res))
  ∧ (∀ e rm h rm', PushShadingObject e rm = (h, rm') →
       h ≠ 0%N ∧ (h < mShadingObjectCount rm')%N
       ∧ mShadingObjectPool rm' !! h = Some e
       ∧ mShaderArray rm' = mShaderArray rm).

(** ** Instances of the parameters *)

(** Modelled from the spec: Shader::SetShaderSource.  Each of the first
    [count] fragments gives [length[i]] bytes or, when [length] is null or
    [length[i]] is negative, its bytes up to the terminator; their
    concatenation becomes the source text, and compile status and info log
    are reset. *)
Fixpoint untilTerminator (text : list byte) : list byte :=
  match text with
  | [] => []
  | b :: rest => if Byte.eqb b Byte.x00 then [] else b :: untilTerminator rest
  end.
Definition fragmentText (text : list byte) (len : option GLint) : list byte :=
  match len with
  | Some n => if Z.ltb n 0 then untilTerminator text else take (Z.to_nat n) text
  | None => untilTerminator text
  end.
Definition Shader_SetShaderSource (count : GLsizei) (string : list (list byte))
    (length : option (list GLint)) (s : Shader) : Shader :=
  let fragments :=
    imap (λ i text, fragmentText text (length ≫= (λ l, l !! i)))
         (take (Z.to_nat count) string) in
  mkShader (shaderKind s) (Some (concat fragments)) None false
           (markedForDeletion s) (refCount s) (compilerRef s).

(** Modelled from the spec: the allocation of a shader (a storage index
    that is not 0 and not in use, with a fresh shader stored there) and
    the registration of a namespace entry (under the handle that the count
    names, never 0). *)
Definition exAllocateShader (rm : ResourceManager) : GLuint * ResourceManager :=
  let res := fresh ({[ 0%N ]} ∪ dom (mShaderArray rm)) in
  (res,
   mkResourceManager
     (<[res := mkShader SHADER_TYPE_VERTEX None None false false 0%nat None]>
        (mShaderArray rm))
     (mShaderProgramArray rm) (mShadingObjectPool rm) (mShadingObjectCount rm)
     (mPurgeListShader rm)).
Definition exPushShadingObject (e : ShadingNamespace_t) (rm : ResourceManager)
  : GLuint * ResourceManager :=
  let h := N.max 1 (mShadingObjectCount rm) in
  (h,
   mkResourceManager (mShaderArray rm) (mShaderProgramArray rm)
     (<[h := e]> (mShadingObjectPool rm)) (N.succ h) (mPurgeListShader rm)).

(** The concrete context with a compiler, to which every shader and
    program refers. *)
Definition exContextBound : Context (backend := exampleBackend) :=
  CreateShaderCompiler exContext.

(** A sequence of calls on the concrete context. *)
Definition exCalls : list Call :=
  [ CallCompileShader 1; CallDeleteShader 3; CallGetShaderiv 3 GL_DELETE_STATUS 7;
    CallReleaseShaderCompiler; CallDeleteShader 1; CallCompileShader 3 ].

(** * Properties *)

(** ** Caller memory *)

Lemma memcpy_at_lookup (src : list byte) (dst : CharBuf) (off i : Z) :
  memcpy_at dst off src i =
    if decide (off ≤ i < off + Z.of_nat (length src))
    then default (dst i) (src !! Z.to_nat (i - off))
    else dst i.
Proof.
  revert dst off. induction src as [|b rest IH]; intros dst off; simpl.
  - case_decide; [lia | done].
  - rewrite IH. destruct (decide (i = off)) as [->|Hne].
    + rewrite decide_False by lia. rewrite fn_lookup_insert.
      rewrite decide_True by lia. by rewrite Z.sub_diag.
    + rewrite fn_lookup_insert_ne by done.
      repeat case_decide; try lia; try done.
      replace (Z.to_nat (i - off)) with (S (Z.to_nat (i - (off + 1)))) by lia.
      done.
Qed.

Lemma memcpy_lookup (src : list byte) (dst : CharBuf) (n i : Z) :
  memcpy dst src n i =
    if decide (0 ≤ i < Z.min n (Z.of_nat (length src)))
    then default (dst i) (src !! Z.to_nat i)
    else dst i.
Proof.
  unfold memcpy. rewrite memcpy_at_lookup, length_take.
  repeat case_decide; try lia; try done.
  rewrite Z.sub_0_r, lookup_take_lt by lia. done.
Qed.

(** What [copyOut] leaves in the buffer and in the length slot. *)
Lemma copyOut_spec (str : list byte) (bufsize : GLsizei) (length : option GLsizei)
    (dst : CharBuf) :
  0 ≤ bufsize →
  let n := Z.max (Z.min bufsize (Z.of_nat (List.length str) + 1) - 1) 0 in
  let r := copyOut (c_str str) (Z.of_nat (List.length str) + 1) bufsize length dst in
  r.1 = match length with Some _ => Some n | None => None end
  ∧ (∀ i, 0 ≤ i < n → str !! Z.to_nat i = Some (r.2 i))
  ∧ r.2 n = Byte.x00
  ∧ (∀ i, i < 0 ∨ n < i → r.2 i = dst i).
Proof.
  intros Hb n r. subst r. unfold copyOut, returnedLen. fold n.
  assert (Hn : 0 ≤ n ≤ Z.of_nat (List.length str)) by lia.
  destruct (Z.eqb_spec n 0) as [H0|H0]; simpl.
  - split; [done|]. split; [intros; lia|]. rewrite H0. split.
    + apply fn_lookup_insert.
    + intros i Hi. rewrite fn_lookup_insert_ne by lia.
      rewrite memcpy_lookup. rewrite decide_False by lia. done.
  - split; [done|]. split; [|split].
    + intros i Hi. rewrite fn_lookup_insert_ne by lia.
      rewrite memcpy_lookup. unfold c_str. rewrite length_app. simpl.
      rewrite decide_True by lia.
      rewrite lookup_app_l by lia.
      destruct (str !! Z.to_nat i) eqn:E; [done|].
      apply lookup_ge_None in E. lia.
    + apply fn_lookup_insert.
    + intros i Hi. rewrite fn_lookup_insert_ne by lia.
      rewrite memcpy_lookup. unfold c_str. rewrite length_app. simpl.
      rewrite decide_False by lia. done.
Qed.

Section ContextShaderFacts.

Context {backend : Backend}.

Implicit Types (ctx : Context) (shader h p : GLuint) (s : Shader).

(** ** Handle resolution *)

Lemma GetShaderPtr_unregistered h ctx :
  unregistered h (mResourceManager ctx) →
  GetShaderPtr h ctx = (None, RecordError GL_INVALID_VALUE ctx).
Proof.
  intros Hu. unfold GetShaderPtr, GetShadingObjectCount, ShadingObjectExists.
  destruct Hu as [->|[Hc|Hn]].
  - done.
  - apply N.leb_le in Hc. rewrite Hc. by rewrite orb_true_r.
  - rewrite Hn. rewrite bool_decide_eq_false_2 by (by intros [? ?]).
    by rewrite orb_true_r.
Qed.

Lemma GetShaderPtr_registered h ctx e :
  h ≠ 0%N → (h < mShadingObjectCount (mResourceManager ctx))%N →
  mShadingObjectPool (mResourceManager ctx) !! h = Some e →
  GetShaderPtr h ctx =
    if N.eqb (arrayIndex e) 0 || negb (bool_decide (type e = SHADER_ID))
    then (None, RecordError GL_INVALID_OPERATION ctx)
    else (GetShader (arrayIndex e) (mResourceManager ctx), ctx).
Proof.
  intros H0 Hc He.
  unfold GetShaderPtr, GetShadingObjectCount, ShadingObjectExists, GetShadingObject.
  apply N.eqb_neq in H0. rewrite H0.
  assert (N.leb (mShadingObjectCount (mResourceManager ctx)) h = false) as ->
    by (apply N.leb_gt; done).
  rewrite He. rewrite bool_decide_eq_true_2 by eauto. done.
Qed.

Lemma unregistered_dec h rm :
  unregistered h rm
  ∨ (h ≠ 0%N ∧ (h < mShadingObjectCount rm)%N
     ∧ ∃ e, mShadingObjectPool rm !! h = Some e).
Proof.
  unfold unregistered.
  destruct (decide (h = 0%N)); [tauto|].
  destruct (decide (mShadingObjectCount rm ≤ h)%N); [tauto|].
  destruct (mShadingObjectPool rm !! h) eqn:E; [|tauto].
  right. split; [done|]. split; [lia|]. eauto.
Qed.

(** A resolved handle: what is known of it. *)
Lemma GetShaderPtr_Some h ctx p ctx' :
  GetShaderPtr h ctx = (Some p, ctx') →
  ctx' = ctx ∧ h ≠ 0%N ∧ (h < mShadingObjectCount (mResourceManager ctx))%N
  ∧ mShadingObjectPool (mResourceManager ctx) !! h = Some (mkShadingNamespace SHADER_ID p)
  ∧ p ≠ 0%N ∧ is_Some (shaderAt p ctx).
Proof.
  intros H. destruct (unregistered_dec h (mResourceManager ctx)) as [Hu|(H0 & Hc & e & He)].
  - rewrite GetShaderPtr_unregistered in H by done. done.
  - rewrite (GetShaderPtr_registered _ _ e) in H by done.
    destruct e as [t i]. simpl in *.
    destruct (N.eqb_spec i 0); simpl in H; [done|].
    case_bool_decide; simpl in H; [|done]. subst t.
    unfold GetShader in H. case_bool_decide; [|done].
    injection H as -> ->. done.
Qed.

(** A handle whose entry is a shader entry with a live shader resolves. *)
Lemma GetShaderPtr_resolves h ctx p :
  h ≠ 0%N → (h < mShadingObjectCount (mResourceManager ctx))%N →
  mShadingObjectPool (mResourceManager ctx) !! h = Some (mkShadingNamespace SHADER_ID p) →
  p ≠ 0%N → is_Some (shaderAt p ctx) →
  GetShaderPtr h ctx = (Some p, ctx).
Proof.
  intros H0 Hc He Hp Hs. rewrite (GetShaderPtr_registered _ _ _ H0 Hc He). simpl.
  apply N.eqb_neq in Hp. rewrite Hp. simpl.
  unfold GetShader. by rewrite bool_decide_eq_true_2.
Qed.

(** Resolution touches nothing but the error slot. *)
Lemma GetShaderPtr_sameButErrors h ctx : sameButErrors (GetShaderPtr h ctx).2 ctx.
Proof.
  unfold GetShaderPtr.
  repeat (case_match; simpl); done.
Qed.

(** C4: resolving a shader handle records GL_INVALID_VALUE exactly when
    the handle is zero, not below the shading-object count, or without an
    entry in the pool; it records GL_INVALID_OPERATION when the handle is
    registered and its entry is not of kind SHADER; whenever it records an
    error it returns the null pointer; and it touches nothing but the
    error slot. *)
Theorem GetShaderPtr_failure_codes h ctx :
  let rm := mResourceManager ctx in
  let r := GetShaderPtr h ctx in
  (mErrors r.2 = GL_INVALID_VALUE :: mErrors ctx ↔ unregistered h rm)
  ∧ (∀ e, ¬ unregistered h rm → mShadingObjectPool rm !! h = Some e →
          type e ≠ SHADER_ID →
          mErrors r.2 = GL_INVALID_OPERATION :: mErrors ctx)
  ∧ (mErrors r.2 ≠ mErrors ctx → r.1 = None)
  ∧ sameButErrors r.2 ctx.
Proof.
  intros rm r. subst rm r.
  split; [|split; [|split]]; [| | |apply GetShaderPtr_sameButErrors].
  - split; [|intros Hu; by rewrite GetShaderPtr_unregistered].
    destruct (unregistered_dec h (mResourceManager ctx)) as [Hu|(H0 & Hc & e & He)];
      [done|].
    rewrite (GetShaderPtr_registered _ _ e) by done.
    case_match; simpl; [discriminate|].
    intros Habs. apply (f_equal List.length) in Habs. simpl in Habs. lia.
  - intros e Hu He Ht.
    destruct (unregistered_dec h (mResourceManager ctx)) as [|(H0 & Hc & _)]; [done|].
    rewrite (GetShaderPtr_registered _ _ e) by done.
    rewrite (bool_decide_eq_false_2 _ Ht). by rewrite orb_true_r.
  - destruct (unregistered_dec h (mResourceManager ctx)) as [Hu|(H0 & Hc & e & He)].
    + by rewrite GetShaderPtr_unregistered.
    + rewrite (GetShaderPtr_registered _ _ e) by done. by case_match.
Qed.

(** ** String queries *)

Lemma resolved_shader h ctx p s :
  (GetShaderPtr h ctx).1 = Some p → shaderAt p ctx = Some s →
  GetShaderPtr h ctx = (Some p, ctx).
Proof.
  intros H _. destruct (GetShaderPtr h ctx) as [q c] eqn:E. simpl in H. subst q.
  apply GetShaderPtr_Some in E as (-> & _). done.
Qed.

Section StringQueries.

Variables (ctx : Context) (shader p : GLuint) (s : Shader).
Variables (bufsize : GLsizei) (length : option GLsizei) (buf : CharBuf).
Hypothesis resolves : (GetShaderPtr shader ctx).1 = Some p.
Hypothesis points : shaderAt p ctx = Some s.
Hypothesis fits : 0 ≤ bufsize.

Lemma GetShaderInfoLog_returned str :
  infoLog s = Some str →
  returned str (Z.max (Z.min bufsize (GetInfoLogLength s) - 1) 0) length buf ctx
           (GetShaderInfoLog shader bufsize length buf ctx).
Proof.
  intros Hstr.
  pose proof (resolved_shader _ _ _ _ resolves points) as Hr.
  assert (Hlt : Z.ltb bufsize 0 = false) by (apply Z.ltb_ge; done).
  pose proof (copyOut_spec str bufsize length buf fits) as Hc. simpl in Hc.
  unfold GetShaderInfoLog, GetInfoLog, GetInfoLogLength.
  rewrite Hlt, Hr. simpl. rewrite points, Hstr. simpl.
  destruct (copyOut _ _ _ _ _) as [l b]. simpl in Hc.
  unfold returned. simpl. tauto.
Qed.

Lemma GetShaderSource_returned str :
  sourceText s = Some str →
  returned str (Z.max (Z.min bufsize (GetShaderSourceLength s) - 1) 0) length buf ctx
           (GetShaderSource shader bufsize length buf ctx).
Proof.
  intros Hstr.
  pose proof (resolved_shader _ _ _ _ resolves points) as Hr.
  assert (Hlt : Z.ltb bufsize 0 = false) by (apply Z.ltb_ge; done).
  pose proof (copyOut_spec str bufsize length buf fits) as Hc. simpl in Hc.
  unfold GetShaderSource, Shader_GetShaderSource, GetShaderSourceLength.
  rewrite Hlt, Hr. simpl. rewrite points, Hstr. simpl.
  destruct (copyOut _ _ _ _ _) as [l b]. simpl in Hc.
  unfold returned. simpl. tauto.
Qed.

(** Without an info log, GetShaderInfoLog stores 0 in the length slot
    and leaves the buffer alone. *)
Lemma GetShaderInfoLog_no_log :
  infoLog s = None →
  GetShaderInfoLog shader bufsize length buf ctx =
    mkStringQuery (match length with Some _ => Some 0 | None => None end) buf ctx.
Proof.
  intros Hstr.
  pose proof (resolved_shader _ _ _ _ resolves points) as Hr.
  assert (Hlt : Z.ltb bufsize 0 = false) by (apply Z.ltb_ge; done).
  unfold GetShaderInfoLog, GetInfoLog.
  rewrite Hlt, Hr. simpl. by rewrite points, Hstr.
Qed.

(** Without source text, GetShaderSource returns at once: buffer and
    length slot are as the caller left them. *)
Lemma GetShaderSource_no_source :
  sourceText s = None →
  GetShaderSource shader bufsize length buf ctx = mkStringQuery length buf ctx.
Proof.
  intros Hstr.
  pose proof (resolved_shader _ _ _ _ resolves points) as Hr.
  assert (Hlt : Z.ltb bufsize 0 = false) by (apply Z.ltb_ge; done).
  unfold GetShaderSource, Shader_GetShaderSource.
  rewrite Hlt, Hr. simpl. by rewrite points, Hstr.
Qed.

(** From a bufsize of 1 on, a string query that returns [n] characters
    keeps within the buffer and terminates what it wrote. *)
Lemma returned_within str len r :
  1 ≤ bufsize → 1 ≤ len →
  returned str (Z.max (Z.min bufsize len - 1) 0) length buf ctx r →
  withinBufsize bufsize buf r ∧ terminatedWithin bufsize r.
Proof.
  intros Hb Hl (_ & Hterm & Hrest & _). split.
  - intros i Hi. apply Hrest. lia.
  - eexists. split; [|exact Hterm]. lia.
Qed.

Lemma string_query_within_bufsize str :
  1 ≤ bufsize →
  (infoLog s = Some str →
   withinBufsize bufsize buf (GetShaderInfoLog shader bufsize length buf ctx)
   ∧ terminatedWithin bufsize (GetShaderInfoLog shader bufsize length buf ctx))
  ∧ (sourceText s = Some str →
     withinBufsize bufsize buf (GetShaderSource shader bufsize length buf ctx)
     ∧ terminatedWithin bufsize (GetShaderSource shader bufsize length buf ctx)).
Proof.
  intros Hb. split; intros Hstr.
  - eapply returned_within; [done| |by apply GetShaderInfoLog_returned].
    unfold GetInfoLogLength. rewrite Hstr. lia.
  - eapply returned_within; [done| |by apply GetShaderSource_returned].
    unfold GetShaderSourceLength. rewrite Hstr. lia.
Qed.

End StringQueries.

(** C1: for a valid shader handle whose info log (source text) exists
    and a non-negative bufsize, GetShaderInfoLog (GetShaderSource) leaves
    returnedLen = max(min(bufsize, actualLength) - 1, 0) characters of the
    string at the start of the buffer, the terminator right after them and
    every other byte as it was, and stores returnedLen in the length slot
    if the caller passed one. *)
Theorem string_query_returns ctx shader p s str bufsize
    (length : option GLsizei) (buf : CharBuf) :
  (GetShaderPtr shader ctx).1 = Some p → shaderAt p ctx = Some s →
  0 ≤ bufsize →
  (infoLog s = Some str →
   returned str (Z.max (Z.min bufsize (GetInfoLogLength s) - 1) 0) length buf ctx
            (GetShaderInfoLog shader bufsize length buf ctx))
  ∧ (sourceText s = Some str →
     returned str (Z.max (Z.min bufsize (GetShaderSourceLength s) - 1) 0) length buf ctx
              (GetShaderSource shader bufsize length buf ctx)).
Proof.
  intros Hp Hs Hb. split; intros Hstr.
  - by apply (GetShaderInfoLog_returned _ _ p s).
  - by apply (GetShaderSource_returned _ _ p s).
Qed.

(** ** Deletion *)

Lemma SetMarkForDeletion_idemp b s :
  SetMarkForDeletion b (SetMarkForDeletion b s) = SetMarkForDeletion b s.
Proof. done. Qed.

(** DeleteShader, once the handle is resolved. *)
Lemma DeleteShader_resolved h ctx p s :
  GetShaderPtr h ctx = (Some p, ctx) → shaderAt p ctx = Some s →
  let rm := updShader (SetMarkForDeletion true) p (mResourceManager ctx) in
  DeleteShader h ctx =
    if FreeForDeletion (SetMarkForDeletion true s) then
      mkContext (DeallocateShader p (EraseShadingObject h rm))
        (mShaderCompiler ctx) (mNextCompiler ctx) (mCompilerSupport ctx) (mErrors ctx)
        (if IsInDrawState (mWriteFBO ctx) then Flush (mWriteFBO ctx) else mWriteFBO ctx)
    else withResourceManager (AddToPurgeList p rm) ctx.
Proof.
  intros Hr Hs rm. pose proof (GetShaderPtr_Some _ _ _ _ Hr) as (_ & H0 & _).
  unfold DeleteShader. apply N.eqb_neq in H0. rewrite H0, Hr.
  unfold shaderAt in *. simpl. rewrite lookup_alter_eq, Hs. simpl.
  destruct (FreeForDeletion _); [|done].
  by destruct (IsInDrawState _).
Qed.

(** C5: when the shader behind a valid handle is still referenced once it
    is marked (FreeForDeletion is false), DeleteShader adds it to the
    purge list, leaves the shading-object pool as it was and keeps the
    marked shader in the shader array, so the handle resolves as before;
    when FreeForDeletion is true the entry is erased, the storage released
    and the purge list untouched; hence entry or storage are gone only if
    FreeForDeletion was true at the request. *)
Theorem DeleteShader_deferred h ctx p s :
  (GetShaderPtr h ctx).1 = Some p → shaderAt p ctx = Some s →
  let marked := SetMarkForDeletion true s in
  let ctx' := DeleteShader h ctx in
  let rm := mResourceManager ctx in
  let rm' := mResourceManager ctx' in
  (FreeForDeletion marked = false →
     p ∈ mPurgeListShader rm'
     ∧ mShadingObjectPool rm' = mShadingObjectPool rm
     ∧ shaderAt p ctx' = Some marked
     ∧ GetShaderPtr h ctx' = (Some p, ctx'))
  ∧ (FreeForDeletion marked = true →
       mShadingObjectPool rm' = delete h (mShadingObjectPool rm)
       ∧ mShaderArray rm' = delete p (mShaderArray rm)
       ∧ mPurgeListShader rm' = mPurgeListShader rm)
  ∧ (mShadingObjectPool rm' !! h = None ∨ shaderAt p ctx' = None →
       FreeForDeletion marked = true).
Proof.
  intros Hp Hs marked ctx' rm rm'.
  pose proof (resolved_shader _ _ _ _ Hp Hs) as Hr.
  pose proof (GetShaderPtr_Some _ _ _ _ Hr) as (_ & H0 & Hc & He & Hp0 & _).
  assert (Hdefer : FreeForDeletion marked = false →
     p ∈ mPurgeListShader rm'
     ∧ mShadingObjectPool rm' = mShadingObjectPool rm
     ∧ shaderAt p ctx' = Some marked
     ∧ GetShaderPtr h ctx' = (Some p, ctx')).
  { intros Hf. subst rm' ctx'. rewrite (DeleteShader_resolved _ _ _ _ Hr Hs).
    fold marked. rewrite Hf. simpl.
    assert (Hm : alter (SetMarkForDeletion true) p (mShaderArray rm) !! p = Some marked).
    { rewrite lookup_alter_eq. unfold shaderAt in Hs. fold rm in Hs. by rewrite Hs. }
    split; [set_solver|]. split; [done|]. split; [done|].
    apply GetShaderPtr_resolves; simpl; done. }
  split; [done|]. split.
  - intros Hf. subst rm' ctx'. rewrite (DeleteShader_resolved _ _ _ _ Hr Hs).
    fold marked. rewrite Hf. simpl. split; [done|]. split; [|done].
    apply map_eq. intros i. destruct (decide (p = i)) as [->|Hne].
    + by rewrite !lookup_delete_eq.
    + by rewrite !lookup_delete_ne, lookup_alter_ne.
  - intros Hgone. destruct (FreeForDeletion marked) eqn:Hf; [done|].
    destruct (Hdefer eq_refl) as (_ & Hpool & Hsh & _).
    rewrite Hpool, Hsh in Hgone. fold rm in He. rewrite He in Hgone.
    by destruct Hgone.
Qed.

Lemma GetShaderPtr_pointer_of_resources h ctx ctx' :
  mResourceManager ctx' = mResourceManager ctx →
  (GetShaderPtr h ctx').1 = (GetShaderPtr h ctx).1.
Proof.
  intros Hrm. unfold GetShaderPtr. rewrite Hrm.
  repeat (case_match; simpl); done.
Qed.

Lemma DeleteShader_unresolved h ctx :
  (GetShaderPtr h ctx).1 = None →
  sameButErrors (DeleteShader h ctx) ctx.
Proof.
  intros Hn. unfold DeleteShader. destruct (N.eqb h 0); [done|].
  pose proof (GetShaderPtr_sameButErrors h ctx) as Hsame.
  destruct (GetShaderPtr h ctx) as [q c]. simpl in *. by subst q.
Qed.

(** C6: a second DeleteShader on the same handle changes nothing but,
    possibly, the error slot: shading-object pool, shader array with the
    flags of every shader, purge list, compiler binding and rendering
    state are as the first call left them; and DeleteShader(0) returns
    the context as it was, error slot included. *)
Theorem DeleteShader_idempotent h ctx :
  sameButErrors (DeleteShader h (DeleteShader h ctx)) (DeleteShader h ctx)
  ∧ DeleteShader 0%N ctx = ctx.
Proof.
  split; [|done].
  destruct (GetShaderPtr h ctx) as [[p|] c1] eqn:E.
  - pose proof (GetShaderPtr_Some _ _ _ _ E) as (-> & H0 & Hc & He & Hp0 & [s Hs]).
    rewrite (DeleteShader_resolved _ _ _ _ E Hs).
    destruct (FreeForDeletion (SetMarkForDeletion true s)) eqn:Hf.
    + apply DeleteShader_unresolved.
      rewrite GetShaderPtr_unregistered; [done|].
      right; right. simpl. apply lookup_delete_eq.
    + set (once := withResourceManager _ ctx).
      assert (Hs1 : shaderAt p once = Some (SetMarkForDeletion true s)).
      { unfold shaderAt in *. simpl. by rewrite lookup_alter_eq, Hs. }
      assert (E1 : GetShaderPtr h once = (Some p, once))
        by (apply GetShaderPtr_resolves; simpl; done).
      rewrite (DeleteShader_resolved _ _ _ _ E1 Hs1).
      rewrite SetMarkForDeletion_idemp, Hf.
      unfold sameButErrors. simpl. split; [|done].
      unfold AddToPurgeList, updShader. simpl. f_equal.
      * apply map_eq. intros i. destruct (decide (p = i)) as [->|Hne].
        -- rewrite !lookup_alter_eq. by destruct (mShaderArray _ !! i).
        -- by rewrite !lookup_alter_ne.
      * by rewrite (assoc_L (∪)), (idemp_L (∪)).
  - assert (Hn : (GetShaderPtr h ctx).1 = None) by (by rewrite E).
    pose proof (DeleteShader_unresolved _ _ Hn) as Hsame.
    apply DeleteShader_unresolved.
    rewrite (GetShaderPtr_pointer_of_resources h ctx); [done|].
    apply Hsame.
Qed.

(** ** The compiler binding *)

(** C7: without a compiler instance, CreateShaderCompiler makes one and
    hands it to every shader of the shader array and every program of the
    program array, whenever they were allocated: each is as before but
    for its compiler reference, which is the context's new one, and no
    object appears or disappears; with an instance, the context is
    returned as it was. *)
Theorem CreateShaderCompiler_rebinds ctx :
  let ctx' := CreateShaderCompiler ctx in
  let rm := mResourceManager ctx in
  let rm' := mResourceManager ctx' in
  (mShaderCompiler ctx = None →
     is_Some (mShaderCompiler ctx')
     ∧ (∀ i, mShaderArray rm' !! i =
               SetShaderCompiler (mShaderCompiler ctx') <$> mShaderArray rm !! i)
     ∧ (∀ i s, mShaderArray rm' !! i = Some s → compilerRef s = mShaderCompiler ctx')
     ∧ (∀ i, mShaderProgramArray rm' !! i =
               SetProgramShaderCompiler (mShaderCompiler ctx') <$> mShaderProgramArray rm !! i)
     ∧ (∀ i g, mShaderProgramArray rm' !! i = Some g →
               programCompilerRef g = mShaderCompiler ctx')
     ∧ mShadingObjectPool rm' = mShadingObjectPool rm
     ∧ mShadingObjectCount rm' = mShadingObjectCount rm
     ∧ mPurgeListShader rm' = mPurgeListShader rm
     ∧ mErrors ctx' = mErrors ctx)
  ∧ (is_Some (mShaderCompiler ctx) → ctx' = ctx).
Proof.
  intros ctx' rm rm'. subst ctx' rm'. unfold CreateShaderCompiler. split.
  - intros ->. simpl. fold rm. split; [eauto|].
    split; [intros i; apply lookup_fmap|].
    split.
    { intros i s. rewrite lookup_fmap. destruct (mShaderArray rm !! i); [|done].
      simpl. by intros [= <-]. }
    split; [intros i; apply lookup_fmap|].
    split; [|done].
    intros i g. rewrite lookup_fmap. destruct (mShaderProgramArray rm !! i); [|done].
    simpl. by intros [= <-].
  - intros [c ->]. done.
Qed.

(** ** IsShader *)

(** C10: IsShader returns the context as it was, so it never records an
    error; it answers false for the zero handle, for a handle that is not
    below the shading-object count, for a handle without an entry and for
    a handle whose entry is of kind PROGRAM, all of which make
    GetShaderPtr record an error. *)
Theorem IsShader_records_nothing h ctx :
  let rm := mResourceManager ctx in
  (IsShader h ctx).2 = ctx
  ∧ (unregistered h rm → (IsShader h ctx).1 = false)
  ∧ (∀ e, mShadingObjectPool rm !! h = Some e → type e = SHADER_PROGRAM_ID →
          (IsShader h ctx).1 = false)
  ∧ (unregistered h rm
     ∨ (∃ e, mShadingObjectPool rm !! h = Some e ∧ type e = SHADER_PROGRAM_ID) →
     mErrors (GetShaderPtr h ctx).2 ≠ mErrors ctx).
Proof.
  intros rm. split; [done|]. unfold IsShader, IsShadingObject. simpl. fold rm.
  split; [|split].
  - intros [->|[Hc|Hn]].
    + by case_match.
    + case_match; [|done].
      apply N.ltb_ge in Hc. rewrite Hc. by rewrite andb_false_r.
    + by rewrite Hn.
  - intros e -> Ht. rewrite bool_decide_eq_false_2 by (rewrite Ht; done).
    by rewrite andb_false_r.
  - intros Hcase Heq.
    assert (Hlen : ∀ (e : GLenum) (l : list GLenum), e :: l ≠ l).
    { intros e l H. apply (f_equal List.length) in H. simpl in H. lia. }
    destruct (unregistered_dec h rm) as [Hu|(H0 & Hc & e & He)].
    + rewrite GetShaderPtr_unregistered in Heq by done. by apply Hlen in Heq.
    + destruct Hcase as [Hu|(e' & He' & Ht)].
      * destruct Hu as [?|[?|Hn]]; [done|lia|]. fold rm in Hn. congruence.
      * rewrite (GetShaderPtr_registered _ _ e) in Heq by done.
        assert (e' = e) as -> by congruence.
        rewrite bool_decide_eq_false_2 in Heq by (rewrite Ht; done).
        rewrite orb_true_r in Heq. by apply Hlen in Heq.
Qed.

(** Compiling a shader that was there before any compiler: the call
    creates the compiler, and the back end runs on the shader's source. *)
Lemma CompileShader_after_creation h ctx p s src :
  mCompilerSupport ctx = true → mShaderCompiler ctx = None →
  (GetShaderPtr h ctx).1 = Some p → shaderAt p ctx = Some s →
  sourceText s = Some src →
  shaderAt p (CompileShader h ctx) =
    Some (mkShader (shaderKind s) (Some src) (Some (glslang (shaderKind s) src).2)
                   (glslang (shaderKind s) src).1 (markedForDeletion s) (refCount s)
                   (Some (mNextCompiler ctx))).
Proof.
  intros Hsup Hnone Hp Hs Hsrc.
  pose proof (resolved_shader _ _ _ _ Hp Hs) as Hr.
  unfold CompileShader, HasShaderCompiler. rewrite Hsup. simpl. rewrite Hr, Hs.
  unfold HasSource. rewrite Hsrc. rewrite bool_decide_eq_true_2 by eauto. simpl.
  unfold CreateShaderCompiler. rewrite Hnone. unfold shaderAt in *. simpl.
  rewrite lookup_alter_eq, lookup_fmap, Hs. simpl.
  unfold Shader_CompileShader. simpl. rewrite Hsrc.
  by destruct (glslang (shaderKind s) src).
Qed.

(** ** GetShaderiv *)

(** Without compiler support, GetShaderiv on a valid handle still stores
    the compile status before HasShaderCompiler records its error. *)
Lemma GetShaderiv_without_support h ctx p s params :
  mCompilerSupport ctx = false →
  (GetShaderPtr h ctx).1 = Some p → shaderAt p ctx = Some s →
  GetShaderiv h GL_COMPILE_STATUS params ctx =
    (if IsCompiled s then GL_TRUE else GL_FALSE,
     RecordError GL_INVALID_OPERATION ctx).
Proof.
  intros Hsup Hp Hs. pose proof (resolved_shader _ _ _ _ Hp Hs) as Hr.
  unfold GetShaderiv, HasShaderCompiler. rewrite Hr. simpl. rewrite Hs. simpl.
  by rewrite Hsup.
Qed.

(** ** The precision query *)


Context {limits : FloatLimits}.


End ContextShaderFacts.

(** * Runs on the concrete context *)

Example resolve_vertex : GetShaderPtr 1 exContext = (Some 1%N, exContext).
Proof. vm_compute. reflexivity. Qed.

Example resolve_program :
  GetShaderPtr 2 exContext = (None, RecordError GL_INVALID_OPERATION exContext).
Proof. vm_compute. reflexivity. Qed.

Example resolve_unallocated :
  GetShaderPtr 9 exContext = (None, RecordError GL_INVALID_VALUE exContext).
Proof. vm_compute. reflexivity. Qed.

Example info_log_bufsize_3 :
  let r := GetShaderInfoLog 1 3 (Some 7) exBuffer exContext in
  peek (outBuffer r) 4 = ["e"; "r"; "000"; "x"]%byte ∧ outLength r = Some 2.
Proof. vm_compute. done. Qed.

Example info_log_bufsize_9 :
  let r := GetShaderInfoLog 1 9 (Some 7) exBuffer exContext in
  peek (outBuffer r) 5 = ["e"; "r"; "r"; "000"; "x"]%byte ∧ outLength r = Some 3.
Proof. vm_compute. done. Qed.

Example delete_attached_twice :
  let once := DeleteShader 3 exContext in
  mPurgeListShader (mResourceManager once) = {[ 2%N ]}
  ∧ GetShaderiv 3 GL_DELETE_STATUS 7 once = (GL_TRUE, once)
  ∧ DeleteShader 3 once = once.
Proof. vm_compute. done. Qed.

Example delete_free_twice :
  let once := DeleteShader 1 exContext in
  (IsShader 1 once).1 = false
  ∧ mErrors once = []
  ∧ DeleteShader 1 once = RecordError GL_INVALID_VALUE once.
Proof. vm_compute. done. Qed.

(** C2, at bufsize 0: the shader behind handle 1 has an info log and a
    source text of three characters (N = 4); called with bufsize 0 on a
    buffer of x's, both string queries store the terminator at offset 0,
    which is past the 0 bytes they were given. *)
Theorem string_query_overruns_zero_bufsize :
  let r := GetShaderInfoLog 1 0 None exBuffer exContext in
  let r' := GetShaderSource 1 0 None exBuffer exContext in
  (GetShaderPtr 1 exContext).1 = Some 1%N
  ∧ shaderAt 1 exContext = Some exVertex
  ∧ GetInfoLogLength exVertex = 4 ∧ GetShaderSourceLength exVertex = 4
  ∧ peek exBuffer 2 = ["x"; "x"]%byte
  ∧ peek (outBuffer r) 2 = ["000"; "x"]%byte
  ∧ peek (outBuffer r') 2 = ["000"; "x"]%byte
  ∧ ¬ withinBufsize 0 exBuffer r
  ∧ ¬ withinBufsize 0 exBuffer r'.
Proof.
  intros r r'. repeat (split; [vm_compute; reflexivity|]).
  split; intros H; specialize (H 0 ltac:(lia)); vm_compute in H; discriminate.
Qed.

(** C3, for GetShaderSource: the shader behind handle 3 has neither info
    log nor source text; with 7 in the caller's length slot,
    GetShaderInfoLog stores 0 there and GetShaderSource leaves the 7. *)
Theorem GetShaderSource_leaves_length :
  (GetShaderPtr 3 exContext).1 = Some 2%N
  ∧ shaderAt 2 exContext = Some exFragment
  ∧ infoLog exFragment = None ∧ sourceText exFragment = None
  ∧ outLength (GetShaderInfoLog 3 16 (Some 7) exBuffer exContext) = Some 0
  ∧ outLength (GetShaderSource 3 16 (Some 7) exBuffer exContext) = Some 7.
Proof. repeat split; vm_compute; reflexivity. Qed.

(** C8, for GetShaderiv: without compiler support, a query of the compile
    status of the shader behind handle 1 overwrites the 7 in the caller's
    slot with GL_FALSE and records GL_INVALID_OPERATION. *)
Theorem GetShaderiv_writes_then_fails :
  (HasShaderCompiler exContextNoCompiler).1 = false
  ∧ GetShaderiv 1 GL_COMPILE_STATUS 7 exContextNoCompiler
    = (GL_FALSE, RecordError GL_INVALID_OPERATION exContextNoCompiler).
Proof. split; vm_compute; reflexivity. Qed.

(** ** Instances of the theorems with hypotheses *)

Lemma string_query_returns_witness :
  ((GetShaderPtr 1 exContext).1 = Some 1%N ∧ shaderAt 1 exContext = Some exVertex
   ∧ 0 ≤ 3)
  ∧ (infoLog exVertex = Some ["e"; "r"; "r"]%byte →
     returned ["e"; "r"; "r"]%byte (Z.max (Z.min 3 (GetInfoLogLength exVertex) - 1) 0)
              (Some 7) exBuffer exContext
              (GetShaderInfoLog 1 3 (Some 7) exBuffer exContext))
  ∧ (sourceText exVertex = Some ["e"; "r"; "r"]%byte →
     returned ["e"; "r"; "r"]%byte
              (Z.max (Z.min 3 (GetShaderSourceLength exVertex) - 1) 0)
              (Some 7) exBuffer exContext
              (GetShaderSource 1 3 (Some 7) exBuffer exContext)).
Proof.
  assert (H1 : (GetShaderPtr 1 exContext).1 = Some 1%N) by (vm_compute; reflexivity).
  assert (H2 : shaderAt 1 exContext = Some exVertex) by (vm_compute; reflexivity).
  assert (H3 : 0 ≤ 3) by lia.
  split; [done|].
  exact (string_query_returns exContext 1 1 exVertex _ 3 (Some 7) exBuffer H1 H2 H3).
Defined.

Lemma DeleteShader_deferred_witness :
  ((GetShaderPtr 3 exContext).1 = Some 2%N ∧ shaderAt 2 exContext = Some exFragment)
  ∧ FreeForDeletion (SetMarkForDeletion true exFragment) = false
  ∧ 2%N ∈ mPurgeListShader (mResourceManager (DeleteShader 3 exContext))
  ∧ GetShaderPtr 3 (DeleteShader 3 exContext) = (Some 2%N, DeleteShader 3 exContext).
Proof.
  assert (H1 : (GetShaderPtr 3 exContext).1 = Some 2%N) by (vm_compute; reflexivity).
  assert (H2 : shaderAt 2 exContext = Some exFragment) by (vm_compute; reflexivity).
  assert (H3 : FreeForDeletion (SetMarkForDeletion true exFragment) = false)
    by reflexivity.
  split; [done|]. split; [done|].
  destruct (DeleteShader_deferred 3 exContext 2 exFragment H1 H2) as (Hd & _).
  destruct (Hd H3) as (Hin & _ & _ & Hres). done.
Defined.



(** * Further properties of the entry points *)

Lemma peek_lookup (buf : CharBuf) (n i : nat) :
  peek buf n !! i = if decide (i < n)%nat then Some (buf (Z.of_nat i)) else None.
Proof.
  unfold peek. rewrite list_lookup_fmap. case_decide.
  - by rewrite lookup_seq_lt.
  - by rewrite lookup_seq_ge by lia.
Qed.

Section MoreFacts.

Context {backend : Backend}.

Implicit Types (ctx : Context) (shader h p : GLuint) (s : Shader).

Lemma cons_ne {A} (e : A) (l : list A) : e :: l ≠ l.
Proof. intros H. apply (f_equal List.length) in H. simpl in H. lia. Qed.

Lemma sameButErrors_refl ctx : sameButErrors ctx ctx.
Proof. done. Qed.

Lemma sameButErrors_RecordError e ctx : sameButErrors (RecordError e ctx) ctx.
Proof. done. Qed.

Lemma sameButErrors_then (a b c : Context) :
  sameButErrors a b → sameButErrors b c → sameButErrors a c.
Proof.
  unfold sameButErrors. intros (? & ? & ? & ? & ?) (? & ? & ? & ? & ?).
  repeat split; congruence.
Qed.

Lemma HasShaderCompiler_sameButErrors ctx : sameButErrors (HasShaderCompiler ctx).2 ctx.
Proof. unfold HasShaderCompiler. by destruct (mCompilerSupport ctx). Qed.

(** A handle either resolves to a shader, with the context as it was, or
    gives the null pointer. *)
Lemma GetShaderPtr_cases h ctx :
  (∃ p s, GetShaderPtr h ctx = (Some p, ctx) ∧ shaderAt p ctx = Some s)
  ∨ (GetShaderPtr h ctx).1 = None.
Proof.
  destruct (GetShaderPtr h ctx) as [[p|] c] eqn:E; [|by right].
  left. pose proof (GetShaderPtr_Some _ _ _ _ E) as (-> & _ & _ & _ & _ & [s Hs]).
  eauto.
Qed.

(** The shader that a valid handle leads to is the same in a context
    with the same resource manager. *)
Lemma resolved_in_same_resources h ctx ctx' p s :
  (GetShaderPtr h ctx).1 = Some p → shaderAt p ctx = Some s →
  mResourceManager ctx' = mResourceManager ctx →
  (GetShaderPtr h ctx').1 = Some p ∧ shaderAt p ctx' = Some s.
Proof.
  intros Hp Hs Hrm. split.
  - by rewrite (GetShaderPtr_pointer_of_resources h ctx ctx').
  - unfold shaderAt in *. by rewrite Hrm.
Qed.

(** ** String queries *)

Lemma GetShaderInfoLog_unresolved h bufsize (length : option GLsizei) (buf : CharBuf) ctx :
  0 ≤ bufsize → (GetShaderPtr h ctx).1 = None →
  GetShaderInfoLog h bufsize length buf ctx
  = mkStringQuery length buf (GetShaderPtr h ctx).2.
Proof.
  intros Hb Hn. unfold GetShaderInfoLog.
  rewrite (proj2 (Z.ltb_ge _ _) Hb).
  destruct (GetShaderPtr h ctx) as [q c]. simpl in *. by subst q.
Qed.

Lemma GetShaderSource_unresolved h bufsize (length : option GLsizei) (buf : CharBuf) ctx :
  0 ≤ bufsize → (GetShaderPtr h ctx).1 = None →
  GetShaderSource h bufsize length buf ctx
  = mkStringQuery length buf (GetShaderPtr h ctx).2.
Proof.
  intros Hb Hn. unfold GetShaderSource.
  rewrite (proj2 (Z.ltb_ge _ _) Hb).
  destruct (GetShaderPtr h ctx) as [q c]. simpl in *. by subst q.
Qed.

(** On a valid handle and with a bufsize that is not negative, a string
    query returns the context as it was. *)
Lemma GetShaderInfoLog_resolved_context h bufsize (length : option GLsizei)
    (buf : CharBuf) ctx p s :
  0 ≤ bufsize → GetShaderPtr h ctx = (Some p, ctx) → shaderAt p ctx = Some s →
  outContext (GetShaderInfoLog h bufsize length buf ctx) = ctx.
Proof.
  intros Hb Hr Hs. unfold GetShaderInfoLog.
  rewrite (proj2 (Z.ltb_ge _ _) Hb), Hr. simpl. rewrite Hs.
  destruct (GetInfoLog s); [|done]. by destruct (copyOut _ _ _ _ _).
Qed.

Lemma GetShaderSource_resolved_context h bufsize (length : option GLsizei)
    (buf : CharBuf) ctx p s :
  0 ≤ bufsize → GetShaderPtr h ctx = (Some p, ctx) → shaderAt p ctx = Some s →
  outContext (GetShaderSource h bufsize length buf ctx) = ctx.
Proof.
  intros Hb Hr Hs. unfold GetShaderSource.
  rewrite (proj2 (Z.ltb_ge _ _) Hb), Hr. simpl. rewrite Hs.
  destruct (Shader_GetShaderSource s); [|done]. by destruct (copyOut _ _ _ _ _).
Qed.

Lemma GetShaderInfoLog_sameButErrors h bufsize (length : option GLsizei)
    (buf : CharBuf) ctx :
  sameButErrors (outContext (GetShaderInfoLog h bufsize length buf ctx)) ctx.
Proof.
  destruct (Z.ltb_spec bufsize 0) as [Hneg|Hb].
  - unfold GetShaderInfoLog. by rewrite (proj2 (Z.ltb_lt _ _) Hneg).
  - destruct (GetShaderPtr_cases h ctx) as [(p & s & Hr & Hs)|Hn].
    + by rewrite (GetShaderInfoLog_resolved_context _ _ _ _ _ p s).
    + rewrite GetShaderInfoLog_unresolved by done. apply GetShaderPtr_sameButErrors.
Qed.

Lemma GetShaderSource_sameButErrors h bufsize (length : option GLsizei)
    (buf : CharBuf) ctx :
  sameButErrors (outContext (GetShaderSource h bufsize length buf ctx)) ctx.
Proof.
  destruct (Z.ltb_spec bufsize 0) as [Hneg|Hb].
  - unfold GetShaderSource. by rewrite (proj2 (Z.ltb_lt _ _) Hneg).
  - destruct (GetShaderPtr_cases h ctx) as [(p & s & Hr & Hs)|Hn].
    + by rewrite (GetShaderSource_resolved_context _ _ _ _ _ p s).
    + rewrite GetShaderSource_unresolved by done. apply GetShaderPtr_sameButErrors.
Qed.

(** X1: a string query changes nothing of the context but the error
    slot; whenever it records an error, buffer and length slot are as the
    caller left them; and with a negative bufsize it records
    GL_INVALID_VALUE once and does not look at the handle. *)
Theorem string_query_failure h bufsize (length : option GLsizei) (buf : CharBuf) ctx :
  let r := GetShaderInfoLog h bufsize length buf ctx in
  let r' := GetShaderSource h bufsize length buf ctx in
  sameButErrors (outContext r) ctx ∧ sameButErrors (outContext r') ctx
  ∧ (mErrors (outContext r) ≠ mErrors ctx → outBuffer r = buf ∧ outLength r = length)
  ∧ (mErrors (outContext r') ≠ mErrors ctx → outBuffer r' = buf ∧ outLength r' = length)
  ∧ (bufsize < 0 →
     r = mkStringQuery length buf (RecordError GL_INVALID_VALUE ctx)
     ∧ r' = mkStringQuery length buf (RecordError GL_INVALID_VALUE ctx)).
Proof.
  intros r r'. subst r r'.
  split; [apply GetShaderInfoLog_sameButErrors|].
  split; [apply GetShaderSource_sameButErrors|].
  assert (Hneg : bufsize < 0 →
     GetShaderInfoLog h bufsize length buf ctx
       = mkStringQuery length buf (RecordError GL_INVALID_VALUE ctx)
     ∧ GetShaderSource h bufsize length buf ctx
       = mkStringQuery length buf (RecordError GL_INVALID_VALUE ctx)).
  { intros Hlt. unfold GetShaderInfoLog, GetShaderSource.
    by rewrite (proj2 (Z.ltb_lt _ _) Hlt). }
  split; [|split; [|done]].
  - destruct (Z.ltb_spec bufsize 0) as [Hlt|Hb].
    + destruct (Hneg Hlt) as [-> _]. done.
    + destruct (GetShaderPtr_cases h ctx) as [(p & s & Hr & Hs)|Hn].
      * rewrite (GetShaderInfoLog_resolved_context _ _ _ _ _ p s) by done. done.
      * rewrite GetShaderInfoLog_unresolved by done. done.
  - destruct (Z.ltb_spec bufsize 0) as [Hlt|Hb].
    + destruct (Hneg Hlt) as [_ ->]. done.
    + destruct (GetShaderPtr_cases h ctx) as [(p & s & Hr & Hs)|Hn].
      * rewrite (GetShaderSource_resolved_context _ _ _ _ _ p s) by done. done.
      * rewrite GetShaderSource_unresolved by done. done.
Qed.

(** The first [n + 1] bytes of the buffer of a string query that
    returned [n] characters: the first [n] characters of the string and
    the terminator. *)
Lemma returned_peek (str : list byte) (n : Z) (length : option GLsizei)
    (buf : CharBuf) ctx (r : StringQuery) :
  0 ≤ n ≤ Z.of_nat (List.length str) →
  returned str n length buf ctx r →
  peek (outBuffer r) (Z.to_nat n + 1) = take (Z.to_nat n) str ++ [Byte.x00].
Proof.
  intros Hn (Hchars & Hterm & _). apply list_eq. intros i.
  rewrite peek_lookup. case_decide as Hi.
  - destruct (decide (i = Z.to_nat n)) as [->|Hne].
    + rewrite Z2Nat.id by lia. rewrite Hterm.
      rewrite lookup_app_r by (rewrite length_take; lia).
      rewrite length_take. by replace (Z.to_nat n - _)%nat with 0%nat by lia.
    + rewrite lookup_app_l by (rewrite length_take; lia).
      rewrite lookup_take_lt by lia.
      specialize (Hchars (Z.of_nat i) ltac:(lia)). by rewrite Nat2Z.id in Hchars.
  - symmetry. apply lookup_ge_None. rewrite length_app, length_take. simpl. lia.
Qed.

(** ** GetShaderiv *)

(** GetShaderiv on a valid handle: the value that the switch stores for
    each of the five parameters. *)
Lemma GetShaderiv_values h ctx p s v :
  (GetShaderPtr h ctx).1 = Some p → shaderAt p ctx = Some s →
  (GetShaderiv h GL_COMPILE_STATUS v ctx).1 = (if IsCompiled s then GL_TRUE else GL_FALSE)
  ∧ (GetShaderiv h GL_DELETE_STATUS v ctx).1
    = (if GetMarkForDeletion s then GL_TRUE else GL_FALSE)
  ∧ (GetShaderiv h GL_INFO_LOG_LENGTH v ctx).1 = GetInfoLogLength s
  ∧ (GetShaderiv h GL_SHADER_SOURCE_LENGTH v ctx).1 = GetShaderSourceLength s
  ∧ (GetShaderiv h GL_SHADER_TYPE v ctx).1
    = match GetShaderType s with
      | SHADER_TYPE_FRAGMENT => GL_FRAGMENT_SHADER
      | SHADER_TYPE_VERTEX => GL_VERTEX_SHADER
      end.
Proof.
  intros Hp Hs. pose proof (resolved_shader _ _ _ _ Hp Hs) as Hr.
  unfold GetShaderiv, HasShaderCompiler. rewrite Hr. simpl. rewrite Hs. simpl.
  repeat split; by destruct (mCompilerSupport ctx).
Qed.

Lemma GetShaderiv_unresolved h pname v ctx :
  (GetShaderPtr h ctx).1 = None →
  GetShaderiv h pname v ctx = (v, (GetShaderPtr h ctx).2).
Proof.
  intros Hn. unfold GetShaderiv.
  destruct (GetShaderPtr h ctx) as [q c]. simpl in *. by subst q.
Qed.

Lemma GetShaderiv_sameButErrors h pname v ctx :
  sameButErrors (GetShaderiv h pname v ctx).2 ctx.
Proof.
  destruct (GetShaderPtr_cases h ctx) as [(p & s & Hr & Hs)|Hn].
  - unfold GetShaderiv, HasShaderCompiler. rewrite Hr. simpl. rewrite Hs. simpl.
    repeat (case_match; simplify_eq/=); done.
  - rewrite GetShaderiv_unresolved by done. apply GetShaderPtr_sameButErrors.
Qed.

(** X2: the length that GetShaderiv reports for GL_INFO_LOG_LENGTH
    (GL_SHADER_SOURCE_LENGTH) of a valid handle with an info log (a source
    text) is the length of the string with its terminator, and a
    GetShaderInfoLog (GetShaderSource) called next with that length as
    bufsize returns the whole string: the buffer starts with the string
    and its terminator, and the length slot holds the length of the
    string. *)
Theorem length_then_string h ctx p s str v (length : option GLsizei) (buf : CharBuf) :
  (GetShaderPtr h ctx).1 = Some p → shaderAt p ctx = Some s →
  (infoLog s = Some str →
   let q := GetShaderiv h GL_INFO_LOG_LENGTH v ctx in
   let r := GetShaderInfoLog h q.1 length buf q.2 in
   q.1 = Z.of_nat (List.length str) + 1
   ∧ peek (outBuffer r) (List.length str + 1) = str ++ [Byte.x00]
   ∧ outLength r = match length with
                   | Some _ => Some (Z.of_nat (List.length str))
                   | None => None
                   end)
  ∧ (sourceText s = Some str →
     let q := GetShaderiv h GL_SHADER_SOURCE_LENGTH v ctx in
     let r := GetShaderSource h q.1 length buf q.2 in
     q.1 = Z.of_nat (List.length str) + 1
     ∧ peek (outBuffer r) (List.length str + 1) = str ++ [Byte.x00]
     ∧ outLength r = match length with
                     | Some _ => Some (Z.of_nat (List.length str))
                     | None => None
                     end).
Proof.
  intros Hp Hs.
  pose proof (GetShaderiv_values h ctx p s v Hp Hs) as (_ & _ & Hlog & Hsrc & _).
  split; intros Hstr q r; subst r q.
  - rewrite Hlog. unfold GetInfoLogLength. rewrite Hstr. split; [done|].
    set (ctx1 := (GetShaderiv h GL_INFO_LOG_LENGTH v ctx).2).
    destruct (resolved_in_same_resources h ctx ctx1 p s Hp Hs) as [Hp1 Hs1];
      [apply GetShaderiv_sameButErrors|].
    pose proof (GetShaderInfoLog_returned ctx1 h p s
                  (Z.of_nat (List.length str) + 1) length buf Hp1 Hs1 ltac:(lia) str Hstr)
      as Hret.
    unfold GetInfoLogLength in Hret. rewrite Hstr in Hret.
    replace (Z.max (Z.min _ _ - 1) 0) with (Z.of_nat (List.length str)) in Hret by lia.
    split.
    + pose proof (returned_peek str (Z.of_nat (List.length str)) length buf ctx1 _
                    ltac:(lia) Hret) as Hpeek.
      by rewrite Nat2Z.id, firstn_all in Hpeek.
    + apply Hret.
  - rewrite Hsrc. unfold GetShaderSourceLength. rewrite Hstr. split; [done|].
    set (ctx1 := (GetShaderiv h GL_SHADER_SOURCE_LENGTH v ctx).2).
    destruct (resolved_in_same_resources h ctx ctx1 p s Hp Hs) as [Hp1 Hs1];
      [apply GetShaderiv_sameButErrors|].
    pose proof (GetShaderSource_returned ctx1 h p s
                  (Z.of_nat (List.length str) + 1) length buf Hp1 Hs1 ltac:(lia) str Hstr)
      as Hret.
    unfold GetShaderSourceLength in Hret. rewrite Hstr in Hret.
    replace (Z.max (Z.min _ _ - 1) 0) with (Z.of_nat (List.length str)) in Hret by lia.
    split.
    + pose proof (returned_peek str (Z.of_nat (List.length str)) length buf ctx1 _
                    ltac:(lia) Hret) as Hpeek.
      by rewrite Nat2Z.id, firstn_all in Hpeek.
    + apply Hret.
Qed.

(** X3: GetShaderiv changes nothing of the context but the error slot;
    on a handle that does not resolve it leaves the caller's slot as it
    was and records the error of the resolution only, without the check
    for compiler support; on a valid handle and a parameter that is none
    of the five, it leaves the slot as it was and records
    GL_INVALID_ENUM. *)
Theorem GetShaderiv_failure h pname v ctx :
  sameButErrors (GetShaderiv h pname v ctx).2 ctx
  ∧ ((GetShaderPtr h ctx).1 = None →
     GetShaderiv h pname v ctx = (v, (GetShaderPtr h ctx).2))
  ∧ (is_Some (GetShaderPtr h ctx).1 →
     pname ∉ [GL_COMPILE_STATUS; GL_DELETE_STATUS; GL_INFO_LOG_LENGTH;
              GL_SHADER_SOURCE_LENGTH; GL_SHADER_TYPE] →
     GetShaderiv h pname v ctx = (v, (HasShaderCompiler (RecordError GL_INVALID_ENUM ctx)).2)).
Proof.
  split; [apply GetShaderiv_sameButErrors|].
  split; [apply GetShaderiv_unresolved|].
  intros [p Hp] Hpname.
  destruct (GetShaderPtr_cases h ctx) as [(p' & s & Hr & Hs)|Hn]; [|congruence].
  rewrite !not_elem_of_cons in Hpname. destruct Hpname as (H1 & H2 & H3 & H4 & H5 & _).
  unfold GetShaderiv. rewrite Hr. simpl. rewrite Hs. simpl.
  rewrite !(proj2 (Z.eqb_neq _ _)) by done.
  by destruct (HasShaderCompiler _).
Qed.

(** ** DeleteShader *)

(** X4: DeleteShader leaves alone the pool entry of every other handle,
    every shader but the one that the handle resolves to, the program
    array, the shading-object count and the compiler binding; it takes
    nothing from the purge list; and the errors it records are those of
    the resolution of the handle, none for handle 0. *)
Theorem DeleteShader_frame h ctx :
  let ctx' := DeleteShader h ctx in
  let rm := mResourceManager ctx in
  let rm' := mResourceManager ctx' in
  (∀ h', h' ≠ h → mShadingObjectPool rm' !! h' = mShadingObjectPool rm !! h')
  ∧ (∀ q, (GetShaderPtr h ctx).1 ≠ Some q → mShaderArray rm' !! q = mShaderArray rm !! q)
  ∧ mShaderProgramArray rm' = mShaderProgramArray rm
  ∧ mShadingObjectCount rm' = mShadingObjectCount rm
  ∧ mPurgeListShader rm ⊆ mPurgeListShader rm'
  ∧ mShaderCompiler ctx' = mShaderCompiler ctx
  ∧ mNextCompiler ctx' = mNextCompiler ctx
  ∧ mCompilerSupport ctx' = mCompilerSupport ctx
  ∧ mErrors ctx' = if decide (h = 0%N) then mErrors ctx else mErrors (GetShaderPtr h ctx).2.
Proof.
  intros ctx' rm rm'. subst ctx' rm rm'.
  destruct (GetShaderPtr_cases h ctx) as [(p & s & Hr & Hs)|Hn].
  - pose proof (GetShaderPtr_Some _ _ _ _ Hr) as (_ & H0 & _).
    rewrite (DeleteShader_resolved _ _ _ _ Hr Hs), Hr. simpl.
    rewrite decide_False by done.
    destruct (FreeForDeletion _); simpl.
    + split; [intros h' Hne; by rewrite lookup_delete_ne|].
      split; [|done].
      intros q Hq. assert (p ≠ q) by congruence.
      by rewrite lookup_delete_ne, lookup_alter_ne.
    + split; [done|]. split; [|repeat split; try done; set_solver].
      intros q Hq. assert (p ≠ q) by congruence.
      by rewrite lookup_alter_ne.
  - pose proof (DeleteShader_unresolved _ _ Hn) as (Hrm & Hc & Hnc & Hsup & _).
    rewrite Hrm, Hc, Hnc, Hsup. repeat split; try done.
    unfold DeleteShader. case_decide as H0.
    + subst h. done.
    + apply N.eqb_neq in H0. rewrite H0.
      destruct (GetShaderPtr h ctx) as [q c]. simpl in *. by subst q.
Qed.

(** X5: once DeleteShader has freed the shader of a valid handle, the
    handle is not registered any more: resolving it gives the null pointer
    and GL_INVALID_VALUE, GetShaderiv and the string queries leave the
    caller's memory as it was, and a further DeleteShader changes nothing
    but the error slot. *)
Theorem DeleteShader_freed_handle h ctx p s :
  (GetShaderPtr h ctx).1 = Some p → shaderAt p ctx = Some s →
  FreeForDeletion (SetMarkForDeletion true s) = true →
  let ctx' := DeleteShader h ctx in
  let failed := RecordError GL_INVALID_VALUE ctx' in
  GetShaderPtr h ctx' = (None, failed)
  ∧ (∀ pname v, GetShaderiv h pname v ctx' = (v, failed))
  ∧ (∀ bufsize (length : option GLsizei) (buf : CharBuf), 0 ≤ bufsize →
       GetShaderInfoLog h bufsize length buf ctx' = mkStringQuery length buf failed
       ∧ GetShaderSource h bufsize length buf ctx' = mkStringQuery length buf failed)
  ∧ DeleteShader h ctx' = failed.
Proof.
  intros Hp Hs Hf ctx' failed.
  pose proof (resolved_shader _ _ _ _ Hp Hs) as Hr.
  pose proof (GetShaderPtr_Some _ _ _ _ Hr) as (_ & H0 & _).
  assert (Hgone : GetShaderPtr h ctx' = (None, failed)).
  { apply GetShaderPtr_unregistered. right; right. subst ctx'.
    rewrite (DeleteShader_resolved _ _ _ _ Hr Hs), Hf. simpl.
    apply lookup_delete_eq. }
  assert (Hn : (GetShaderPtr h ctx').1 = None) by (by rewrite Hgone).
  split; [done|]. split; [|split].
  - intros pname v. rewrite GetShaderiv_unresolved by done. by rewrite Hgone.
  - intros bufsize length buf Hb.
    rewrite GetShaderInfoLog_unresolved, GetShaderSource_unresolved by done.
    by rewrite Hgone.
  - unfold DeleteShader. apply N.eqb_neq in H0. rewrite H0. by rewrite Hgone.
Qed.

(** X6: DeleteShader flushes exactly when it frees a shader while the
    write framebuffer is in draw state; a deletion that is deferred, or of
    a handle that does not resolve, leaves the rendering state alone. *)
Theorem DeleteShader_flush h ctx :
  let freed :=
    match (GetShaderPtr h ctx).1 ≫= (λ p, shaderAt p ctx) with
    | Some s => FreeForDeletion (SetMarkForDeletion true s)
    | None => false
    end in
  mWriteFBO (DeleteShader h ctx)
  = if freed && IsInDrawState (mWriteFBO ctx)
    then Flush (mWriteFBO ctx) else mWriteFBO ctx.
Proof.
  intros freed. subst freed.
  destruct (GetShaderPtr_cases h ctx) as [(p & s & Hr & Hs)|Hn].
  - rewrite (DeleteShader_resolved _ _ _ _ Hr Hs), Hr. simpl. rewrite Hs.
    by destruct (FreeForDeletion _).
  - pose proof (DeleteShader_unresolved _ _ Hn) as (_ & _ & _ & _ & Hvk).
    rewrite Hvk, Hn. done.
Qed.

(** X7: after a DeleteShader that is deferred, GetShaderiv on the handle
    reports GL_TRUE for GL_DELETE_STATUS and, for every other parameter,
    what it reported before. *)
Theorem DeleteShader_then_GetShaderiv h ctx p s v :
  (GetShaderPtr h ctx).1 = Some p → shaderAt p ctx = Some s →
  FreeForDeletion (SetMarkForDeletion true s) = false →
  let ctx' := DeleteShader h ctx in
  (GetShaderiv h GL_DELETE_STATUS v ctx').1 = GL_TRUE
  ∧ (∀ pname, pname ≠ GL_DELETE_STATUS →
       (GetShaderiv h pname v ctx').1 = (GetShaderiv h pname v ctx).1).
Proof.
  intros Hp Hs Hf ctx'.
  pose proof (resolved_shader _ _ _ _ Hp Hs) as Hr.
  pose proof (GetShaderPtr_Some _ _ _ _ Hr) as (_ & H0 & Hc & He & Hp0 & _).
  assert (Hctx' : ctx' = withResourceManager
            (AddToPurgeList p (updShader (SetMarkForDeletion true) p (mResourceManager ctx)))
            ctx).
  { subst ctx'. by rewrite (DeleteShader_resolved _ _ _ _ Hr Hs), Hf. }
  assert (Hs' : shaderAt p ctx' = Some (SetMarkForDeletion true s)).
  { rewrite Hctx'. unfold shaderAt in *. simpl. by rewrite lookup_alter_eq, Hs. }
  assert (Hr' : GetShaderPtr h ctx' = (Some p, ctx')).
  { apply GetShaderPtr_resolves; rewrite ?Hs'; try done; by rewrite Hctx'. }
  split.
  - unfold GetShaderiv, HasShaderCompiler. rewrite Hr'. simpl. rewrite Hs'. simpl.
    by destruct (mCompilerSupport ctx').
  - intros pname Hpname. apply Z.eqb_neq in Hpname.
    unfold GetShaderiv, HasShaderCompiler. rewrite Hr', Hr. simpl.
    rewrite Hs', Hs. simpl. rewrite Hpname.
    unfold IsCompiled, GetInfoLogLength, GetShaderSourceLength, GetShaderType. simpl.
    repeat (case_match; simplify_eq/=); done.
Qed.

(** ** The compiler binding *)

(** X8: CreateShaderCompiler always leaves the context with a compiler,
    and a second call in a row changes nothing: the compiler is created
    once. *)
Theorem CreateShaderCompiler_once ctx :
  is_Some (mShaderCompiler (CreateShaderCompiler ctx))
  ∧ CreateShaderCompiler (CreateShaderCompiler ctx) = CreateShaderCompiler ctx.
Proof.
  assert (H : is_Some (mShaderCompiler (CreateShaderCompiler ctx))).
  { unfold CreateShaderCompiler.
    destruct (mShaderCompiler ctx) eqn:E; simpl; rewrite ?E; eauto. }
  split; [done|]. destruct H as [c Hc].
  unfold CreateShaderCompiler at 1. by rewrite Hc.
Qed.

(** X9: without compiler support ReleaseShaderCompiler only records
    GL_INVALID_OPERATION and keeps the compiler.  With support it leaves
    the context without a compiler, records nothing and does not touch the
    resource manager, so that every shader keeps the reference it had; a
    CreateShaderCompiler after it makes a new compiler and hands it to
    every shader and every program. *)
Theorem ReleaseShaderCompiler_then_create ctx :
  let released := ReleaseShaderCompiler ctx in
  let ctx' := CreateShaderCompiler released in
  (mCompilerSupport ctx = false → released = RecordError GL_INVALID_OPERATION ctx)
  ∧ (mCompilerSupport ctx = true →
     mShaderCompiler released = None
     ∧ mResourceManager released = mResourceManager ctx
     ∧ mErrors released = mErrors ctx
     ∧ mShaderCompiler ctx' = Some (mNextCompiler ctx)
     ∧ (∀ i s', mShaderArray (mResourceManager ctx') !! i = Some s' →
                compilerRef s' = Some (mNextCompiler ctx))
     ∧ (∀ i g', mShaderProgramArray (mResourceManager ctx') !! i = Some g' →
                programCompilerRef g' = Some (mNextCompiler ctx))).
Proof.
  intros released ctx'. subst ctx' released.
  unfold ReleaseShaderCompiler, HasShaderCompiler. split; intros Hsup; rewrite Hsup.
  - done.
  - simpl.
    assert (Hrel : ∃ rel : Context,
              (match mShaderCompiler ctx with
               | Some _ => mkContext (mResourceManager ctx) None (mNextCompiler ctx)
                             (mCompilerSupport ctx) (mErrors ctx) (mWriteFBO ctx)
               | None => ctx
               end) = rel
              ∧ mShaderCompiler rel = None
              ∧ mResourceManager rel = mResourceManager ctx
              ∧ mErrors rel = mErrors ctx
              ∧ mNextCompiler rel = mNextCompiler ctx).
    { destruct (mShaderCompiler ctx) eqn:E; eexists; (split; [reflexivity|]); done. }
    destruct Hrel as (rel & -> & Hnone & Hrm & Herr & Hnext).
    split; [done|]. split; [done|]. split; [done|].
    unfold CreateShaderCompiler. rewrite Hnone, Hnext. simpl.
    split; [done|]. split.
    + intros i s'. rewrite lookup_fmap.
      destruct (mShaderArray (mResourceManager rel) !! i); [|done].
      simpl. by intros [= <-].
    + intros i g'. rewrite lookup_fmap.
      destruct (mShaderProgramArray (mResourceManager rel) !! i); [|done].
      simpl. by intros [= <-].
Qed.

(** CompileShader, once it is past its checks. *)
Lemma CompileShader_resolved h ctx p s :
  mCompilerSupport ctx = true →
  GetShaderPtr h ctx = (Some p, ctx) → shaderAt p ctx = Some s →
  CompileShader h ctx =
    if HasSource s then
      withResourceManager
        (updShader (Shader_CompileShader glslang) p
                   (mResourceManager (CreateShaderCompiler ctx)))
        (CreateShaderCompiler ctx)
    else ctx.
Proof.
  intros Hsup Hr Hs. unfold CompileShader, HasShaderCompiler. rewrite Hsup. simpl.
  rewrite Hr, Hs. by destruct (HasSource s).
Qed.

(** X10: CompileShader does nothing but record GL_INVALID_OPERATION
    without compiler support; with support and a handle that does not
    resolve it does nothing but record the error of the resolution; and
    with support and a valid handle whose shader has no source text it
    returns the context as it was: no error, and no compiler is created. *)
Theorem CompileShader_nothing_to_do h ctx :
  (mCompilerSupport ctx = false →
   CompileShader h ctx = RecordError GL_INVALID_OPERATION ctx)
  ∧ (mCompilerSupport ctx = true → (GetShaderPtr h ctx).1 = None →
     CompileShader h ctx = (GetShaderPtr h ctx).2)
  ∧ (mCompilerSupport ctx = true →
     ∀ p s, (GetShaderPtr h ctx).1 = Some p → shaderAt p ctx = Some s →
            sourceText s = None → CompileShader h ctx = ctx).
Proof.
  split; [|split].
  - intros Hsup. unfold CompileShader, HasShaderCompiler. by rewrite Hsup.
  - intros Hsup Hn. unfold CompileShader, HasShaderCompiler. rewrite Hsup. simpl.
    destruct (GetShaderPtr h ctx) as [q c]. simpl in *. by subst q.
  - intros Hsup p s Hp Hs Hsrc.
    rewrite (CompileShader_resolved _ _ p s Hsup (resolved_shader _ _ _ _ Hp Hs) Hs).
    unfold HasSource. rewrite Hsrc.
    by rewrite bool_decide_eq_false_2 by (by intros [? ?]).
Qed.

(** X11: in a context with compiler support in which every shader refers
    to the compiler whenever there is one, CompileShader on a valid handle
    whose shader has a source text records no error, leaves the context
    with a compiler to which the shader refers, and stores the verdict and
    the info log of the back end for that source text; a GetShaderiv for
    GL_COMPILE_STATUS after it reports the verdict. *)
Theorem CompileShader_then_status h ctx p s src v :
  mCompilerSupport ctx = true → liveCompilerBound ctx →
  (GetShaderPtr h ctx).1 = Some p → shaderAt p ctx = Some s →
  sourceText s = Some src →
  let ctx' := CompileShader h ctx in
  is_Some (mShaderCompiler ctx')
  ∧ mErrors ctx' = mErrors ctx
  ∧ shaderAt p ctx' =
      Some (mkShader (shaderKind s) (Some src) (Some (glslang (shaderKind s) src).2)
                     (glslang (shaderKind s) src).1 (markedForDeletion s) (refCount s)
                     (mShaderCompiler ctx'))
  ∧ GetShaderiv h GL_COMPILE_STATUS v ctx'
    = (if (glslang (shaderKind s) src).1 then GL_TRUE else GL_FALSE, ctx').
Proof.
  intros Hsup Hbound Hp Hs Hsrc ctx'.
  pose proof (resolved_shader _ _ _ _ Hp Hs) as Hr.
  pose proof (GetShaderPtr_Some _ _ _ _ Hr) as (_ & H0 & Hc & He & Hp0 & _).
  assert (Hafter : ∃ c, mShaderCompiler (CreateShaderCompiler ctx) = Some c
            ∧ shaderAt p (CreateShaderCompiler ctx) = Some (SetShaderCompiler (Some c) s)).
  { unfold CreateShaderCompiler. destruct (mShaderCompiler ctx) as [c|] eqn:E.
    - exists c. split; [done|]. rewrite Hs. f_equal.
      destruct (Hbound c E) as [Hsh _]. unfold shaderAt in Hs.
      specialize (Hsh p s Hs). destruct s. simpl in *. by subst.
    - eexists. split; [done|]. unfold shaderAt in *. simpl.
      by rewrite lookup_fmap, Hs. }
  destruct Hafter as (c & Hc' & Hs1).
  assert (Hctx' : ctx' = withResourceManager
            (updShader (Shader_CompileShader glslang) p
                       (mResourceManager (CreateShaderCompiler ctx)))
            (CreateShaderCompiler ctx)).
  { subst ctx'. rewrite (CompileShader_resolved _ _ p s Hsup Hr Hs).
    unfold HasSource. rewrite Hsrc. by rewrite bool_decide_eq_true_2 by eauto. }
  assert (Hkeep : mShadingObjectPool (mResourceManager (CreateShaderCompiler ctx))
                  = mShadingObjectPool (mResourceManager ctx)
                  ∧ mShadingObjectCount (mResourceManager (CreateShaderCompiler ctx))
                    = mShadingObjectCount (mResourceManager ctx)
                  ∧ mErrors (CreateShaderCompiler ctx) = mErrors ctx
                  ∧ mCompilerSupport (CreateShaderCompiler ctx) = mCompilerSupport ctx).
  { unfold CreateShaderCompiler. by destruct (mShaderCompiler ctx). }
  destruct Hkeep as (Hpool & Hcount & Herr & Hsup').
  assert (Hs' : shaderAt p ctx' =
      Some (mkShader (shaderKind s) (Some src) (Some (glslang (shaderKind s) src).2)
                     (glslang (shaderKind s) src).1 (markedForDeletion s) (refCount s)
                     (Some c))).
  { rewrite Hctx'. unfold shaderAt in *. simpl. rewrite lookup_alter_eq, Hs1. simpl.
    unfold Shader_CompileShader. simpl. rewrite Hsrc.
    by destruct (glslang (shaderKind s) src). }
  assert (Hcomp : mShaderCompiler ctx' = Some c) by (by rewrite Hctx').
  split; [rewrite Hcomp; eauto|].
  split; [by rewrite Hctx'|].
  split; [by rewrite Hcomp|].
  assert (Hr' : GetShaderPtr h ctx' = (Some p, ctx')).
  { apply GetShaderPtr_resolves; rewrite ?Hs'; try done; rewrite Hctx'; simpl;
      by rewrite ?Hpool, ?Hcount. }
  unfold GetShaderiv, HasShaderCompiler. rewrite Hr'. simpl. rewrite Hs'. simpl.
  assert (mCompilerSupport ctx' = true) as -> by (rewrite Hctx'; simpl; congruence).
  done.
Qed.

(** ** Handle resolution *)

(** X16: GetShaderPtr returns a pointer exactly for a handle that is not
    0, is below the shading-object count and has a pool entry of kind
    SHADER whose storage index is not 0 and holds a shader; the pointer is
    that storage index, and no error is recorded. *)
Theorem GetShaderPtr_success h ctx p :
  ((GetShaderPtr h ctx).1 = Some p ↔
   h ≠ 0%N ∧ (h < mShadingObjectCount (mResourceManager ctx))%N
   ∧ mShadingObjectPool (mResourceManager ctx) !! h
     = Some (mkShadingNamespace SHADER_ID p)
   ∧ p ≠ 0%N ∧ is_Some (shaderAt p ctx))
  ∧ ((GetShaderPtr h ctx).1 = Some p → (GetShaderPtr h ctx).2 = ctx).
Proof.
  split; [split|].
  - intros Hp. destruct (GetShaderPtr h ctx) as [q c] eqn:E. simpl in Hp. subst q.
    pose proof (GetShaderPtr_Some _ _ _ _ E) as (_ & ? & ? & ? & ? & ?). done.
  - intros (H0 & Hc & He & Hp0 & Hs). by rewrite (GetShaderPtr_resolves h ctx p).
  - intros Hp. destruct (GetShaderPtr h ctx) as [q c] eqn:E. simpl in Hp. subst q.
    by pose proof (GetShaderPtr_Some _ _ _ _ E) as (-> & _).
Qed.

(** ** ShaderSource *)

Section ShaderSourceFacts.

Variable SetShaderSource :
  GLsizei → list (list byte) → option (list GLint) → Shader → Shader.

(** X13: ShaderSource checks compiler support, then the handle, then the
    count: without support it only records GL_INVALID_OPERATION; with
    support and a handle that does not resolve it only records the error
    of the resolution; with a valid handle and a negative count it only
    records GL_INVALID_VALUE.  Whenever it records an error, nothing else
    of the context has changed. *)
Theorem ShaderSource_failure h count (string : list (list byte))
    (length : option (list GLint)) ctx :
  let ctx' := ShaderSource SetShaderSource h count string length ctx in
  (mCompilerSupport ctx = false → ctx' = RecordError GL_INVALID_OPERATION ctx)
  ∧ (mCompilerSupport ctx = true → (GetShaderPtr h ctx).1 = None →
     ctx' = (GetShaderPtr h ctx).2)
  ∧ (mCompilerSupport ctx = true → is_Some (GetShaderPtr h ctx).1 → count < 0 →
     ctx' = RecordError GL_INVALID_VALUE ctx)
  ∧ (mErrors ctx' ≠ mErrors ctx → sameButErrors ctx' ctx).
Proof.
  intros ctx'. subst ctx'. unfold ShaderSource, HasShaderCompiler.
  split; [by intros ->|].
  split; [intros -> Hn; simpl;
          destruct (GetShaderPtr h ctx) as [q c]; simpl in *; by subst q|].
  split.
  - intros -> [p Hp] Hlt. simpl.
    destruct (GetShaderPtr_cases h ctx) as [(p' & s & Hr & Hs)|Hn]; [|congruence].
    rewrite Hr. by rewrite (proj2 (Z.ltb_lt _ _) Hlt).
  - destruct (mCompilerSupport ctx); simpl; [|done].
    destruct (GetShaderPtr_cases h ctx) as [(p' & s & Hr & Hs)|Hn].
    + rewrite Hr. by destruct (Z.ltb count 0).
    + pose proof (GetShaderPtr_sameButErrors h ctx) as Hsame.
      destruct (GetShaderPtr h ctx) as [q c]. simpl in *. by subst q.
Qed.

(** X14: with compiler support, a valid handle and a count that is not
    negative (0 included), ShaderSource records no error and hands count,
    fragments and lengths to SetShaderSource of the shader; every other
    shader, the pool, the count, the program array, the purge list and the
    compiler binding are as before, and the handle resolves as before. *)
Theorem ShaderSource_sets h count (string : list (list byte))
    (length : option (list GLint)) ctx p s :
  mCompilerSupport ctx = true →
  (GetShaderPtr h ctx).1 = Some p → shaderAt p ctx = Some s →
  0 ≤ count →
  let ctx' := ShaderSource SetShaderSource h count string length ctx in
  let rm := mResourceManager ctx in
  let rm' := mResourceManager ctx' in
  shaderAt p ctx' = Some (SetShaderSource count string length s)
  ∧ (∀ q, q ≠ p → shaderAt q ctx' = shaderAt q ctx)
  ∧ mShadingObjectPool rm' = mShadingObjectPool rm
  ∧ mShadingObjectCount rm' = mShadingObjectCount rm
  ∧ mShaderProgramArray rm' = mShaderProgramArray rm
  ∧ mPurgeListShader rm' = mPurgeListShader rm
  ∧ mShaderCompiler ctx' = mShaderCompiler ctx
  ∧ mErrors ctx' = mErrors ctx
  ∧ GetShaderPtr h ctx' = (Some p, ctx').
Proof.
  intros Hsup Hp Hs Hcount ctx' rm rm'.
  pose proof (resolved_shader _ _ _ _ Hp Hs) as Hr.
  pose proof (GetShaderPtr_Some _ _ _ _ Hr) as (_ & H0 & Hc & He & Hp0 & _).
  assert (Hctx' : ctx' = withResourceManager
            (updShader (SetShaderSource count string length) p (mResourceManager ctx)) ctx).
  { subst ctx'. unfold ShaderSource, HasShaderCompiler. rewrite Hsup. simpl.
    rewrite Hr. by rewrite (proj2 (Z.ltb_ge _ _) Hcount). }
  assert (Hs' : shaderAt p ctx' = Some (SetShaderSource count string length s)).
  { rewrite Hctx'. unfold shaderAt in *. simpl. by rewrite lookup_alter_eq, Hs. }
  split; [done|]. split.
  { intros q Hq. rewrite Hctx'. unfold shaderAt. simpl. by rewrite lookup_alter_ne. }
  subst rm'. rewrite Hctx' at 1 2 3 4 5 6. simpl.
  repeat (split; [done|]).
  apply GetShaderPtr_resolves; rewrite ?Hs'; try done; by rewrite Hctx'.
Qed.

End ShaderSourceFacts.

(** ** CreateShader *)

(** X15: when allocation and registration keep their contract,
    CreateShader with GL_VERTEX_SHADER or GL_FRAGMENT_SHADER records no
    error and returns a handle other than 0 that resolves; the shader
    behind it refers to the compiler of the context, if there is one, and
    GetShaderiv reports for its GL_SHADER_TYPE the type that was passed.
    With any other type CreateShader returns 0 and only records
    GL_INVALID_ENUM. *)
Theorem CreateShader_then_query
    (AllocateShader : ResourceManager → GLuint * ResourceManager)
    (PushShadingObject : ShadingNamespace_t → ResourceManager → GLuint * ResourceManager)
    (type : GLenum) ctx v :
  allocatorContract AllocateShader PushShadingObject →
  (type = GL_VERTEX_SHADER ∨ type = GL_FRAGMENT_SHADER →
   ∃ h ctx' p s',
     CreateShader AllocateShader PushShadingObject type ctx = Some (h, ctx')
     ∧ h ≠ 0%N
     ∧ mErrors ctx' = mErrors ctx
     ∧ GetShaderPtr h ctx' = (Some p, ctx')
     ∧ shaderAt p ctx' = Some s'
     ∧ compilerRef s' = mShaderCompiler ctx
     ∧ mShaderCompiler ctx' = mShaderCompiler ctx
     ∧ (GetShaderiv h GL_SHADER_TYPE v ctx').1 = type)
  ∧ (type ≠ GL_VERTEX_SHADER → type ≠ GL_FRAGMENT_SHADER →
     CreateShader AllocateShader PushShadingObject type ctx
     = Some (0%N, RecordError GL_INVALID_ENUM ctx)).
Proof.
  intros [Halloc Hpush]. split.
  - intros Htype. unfold CreateShader.
    assert (Hk : negb (type =? GL_VERTEX_SHADER) && negb (type =? GL_FRAGMENT_SHADER)
                 = false) by (by destruct Htype as [-> | ->]).
    rewrite Hk. clear Hk.
    destruct (AllocateShader (mResourceManager ctx)) as [res rm1] eqn:Ea.
    destruct (Halloc _ _ _ Ea) as [Hres [s0 Hs0]].
    unfold GetShader. rewrite bool_decide_eq_true_2 by eauto.
    set (t := if type =? GL_VERTEX_SHADER then SHADER_TYPE_VERTEX else SHADER_TYPE_FRAGMENT).
    set (rm2 := updShader (SetShaderCompiler (mShaderCompiler ctx)) res
                  (updShader (SetShaderType t) res rm1)).
    destruct (PushShadingObject (mkShadingNamespace SHADER_ID res) rm2) as [h rm3] eqn:Ep.
    destruct (Hpush _ _ _ _ Ep) as (Hh & Hlt & Hentry & Harr).
    set (s' := SetShaderCompiler (mShaderCompiler ctx) (SetShaderType t s0)).
    assert (Hs' : mShaderArray rm3 !! res = Some s').
    { rewrite Harr. subst rm2. simpl. by rewrite !lookup_alter_eq, Hs0. }
    exists h, (withResourceManager rm3 ctx), res, s'.
    assert (Hr' : GetShaderPtr h (withResourceManager rm3 ctx)
                  = (Some res, withResourceManager rm3 ctx)).
    { apply GetShaderPtr_resolves; try done. }
    repeat (split; [done|]).
    unfold GetShaderiv, HasShaderCompiler. rewrite Hr'. simpl.
    unfold shaderAt. simpl. rewrite Hs'. simpl.
    subst t. destruct Htype as [-> | ->]; simpl;
      by destruct (mCompilerSupport ctx).
  - intros Hv Hf. unfold CreateShader.
    by rewrite !(proj2 (Z.eqb_neq _ _)) by done.
Qed.

(** ** The shape of the calls that change more than the error slot *)

Lemma DeleteShader_cases h ctx :
  sameButErrors (DeleteShader h ctx) ctx
  ∨ ∃ p s,
      mShadingObjectPool (mResourceManager ctx) !! h = Some (mkShadingNamespace SHADER_ID p)
      ∧ p ≠ 0%N ∧ shaderAt p ctx = Some s
      ∧ mShaderCompiler (DeleteShader h ctx) = mShaderCompiler ctx
      ∧ (mResourceManager (DeleteShader h ctx)
         = DeallocateShader p (EraseShadingObject h
             (updShader (SetMarkForDeletion true) p (mResourceManager ctx)))
         ∨ mResourceManager (DeleteShader h ctx)
           = AddToPurgeList p
               (updShader (SetMarkForDeletion true) p (mResourceManager ctx))).
Proof.
  destruct (GetShaderPtr_cases h ctx) as [(p & s & Hr & Hs)|Hn].
  - right. exists p, s.
    pose proof (GetShaderPtr_Some _ _ _ _ Hr) as (_ & _ & _ & He & Hp0 & _).
    rewrite (DeleteShader_resolved _ _ _ _ Hr Hs).
    destruct (FreeForDeletion _); simpl; eauto 10.
  - left. by apply DeleteShader_unresolved.
Qed.

Lemma CompileShader_cases h ctx :
  sameButErrors (CompileShader h ctx) ctx
  ∨ ∃ p,
      CompileShader h ctx
      = withResourceManager
          (updShader (Shader_CompileShader glslang) p
                     (mResourceManager (CreateShaderCompiler ctx)))
          (CreateShaderCompiler ctx).
Proof.
  destruct (mCompilerSupport ctx) eqn:Hsup.
  - destruct (GetShaderPtr_cases h ctx) as [(p & s & Hr & Hs)|Hn].
    + rewrite (CompileShader_resolved _ _ p s Hsup Hr Hs).
      destruct (HasSource s); [right; eauto | left; done].
    + left. unfold CompileShader, HasShaderCompiler. rewrite Hsup. simpl.
      pose proof (GetShaderPtr_sameButErrors h ctx) as Hsame.
      destruct (GetShaderPtr h ctx) as [q c]. simpl in *. by subst q.
  - left. unfold CompileShader, HasShaderCompiler. by rewrite Hsup.
Qed.

Lemma ReleaseShaderCompiler_cases ctx :
  mResourceManager (ReleaseShaderCompiler ctx) = mResourceManager ctx
  ∧ (mShaderCompiler (ReleaseShaderCompiler ctx) = None
     ∨ mShaderCompiler (ReleaseShaderCompiler ctx) = mShaderCompiler ctx).
Proof.
  unfold ReleaseShaderCompiler, HasShaderCompiler.
  destruct (mCompilerSupport ctx); simpl; [|eauto].
  destruct (mShaderCompiler ctx) eqn:E; simpl; eauto.
Qed.

Lemma Shader_CompileShader_later s :
  sameShaderLater s (Shader_CompileShader glslang s)
  ∧ compilerRef (Shader_CompileShader glslang s) = compilerRef s.
Proof.
  unfold Shader_CompileShader, sameShaderLater.
  destruct s as [k src log ok mark ref c]. simpl.
  destruct c as [c|]; [|done]. destruct src as [src|]; [|done].
  by destruct (glslang _ _).
Qed.

(** ** What no sequence of calls does *)

Lemma sameShaderLater_refl s : sameShaderLater s s.
Proof. done. Qed.

Lemma sameShaderLater_trans s1 s2 s3 :
  sameShaderLater s1 s2 → sameShaderLater s2 s3 → sameShaderLater s1 s3.
Proof.
  unfold sameShaderLater. intros (? & ? & ? & ?) (? & ? & ? & ?).
  repeat split; try congruence. eauto.
Qed.

Lemma laterResources_refl rm : laterResources rm rm.
Proof.
  unfold laterResources. repeat split; eauto using sameShaderLater_refl.
Qed.

Lemma laterResources_trans rm1 rm2 rm3 :
  laterResources rm1 rm2 → laterResources rm2 rm3 → laterResources rm1 rm3.
Proof.
  intros (Hp1 & Hs1 & Hg1 & Hc1 & Hl1) (Hp2 & Hs2 & Hg2 & Hc2 & Hl2).
  split; [eauto|]. split.
  { intros p s3 H3. destruct (Hs2 _ _ H3) as (s2 & H2 & Hl).
    destruct (Hs1 _ _ H2) as (s1 & H1 & Hl'). eauto using sameShaderLater_trans. }
  split; [intros i; by rewrite Hg2|]. split; [congruence|]. by etrans.
Qed.

Lemma laterResources_updShader (f : Shader → Shader) p rm :
  (∀ s, sameShaderLater s (f s)) → laterResources rm (updShader f p rm).
Proof.
  intros Hf. unfold laterResources. simpl. split; [done|]. split; [|done].
  intros q s'. destruct (decide (p = q)) as [->|Hne].
  - rewrite lookup_alter_eq. destruct (mShaderArray rm !! q) as [s|]; [|done].
    simpl. intros [= <-]. eauto.
  - rewrite lookup_alter_ne by done. eauto using sameShaderLater_refl.
Qed.

Lemma laterResources_CreateShaderCompiler ctx :
  laterResources (mResourceManager ctx) (mResourceManager (CreateShaderCompiler ctx)).
Proof.
  unfold CreateShaderCompiler. destruct (mShaderCompiler ctx);
    [apply laterResources_refl|].
  unfold laterResources. simpl. split; [done|]. split; [|split; [|done]].
  - intros p s'. rewrite lookup_fmap.
    destruct (mShaderArray (mResourceManager ctx) !! p) as [s|]; [|done].
    simpl. intros [= <-]. by exists s.
  - intros i. rewrite lookup_fmap. by rewrite fmap_is_Some.
Qed.

Lemma laterResources_DeleteShader h ctx :
  laterResources (mResourceManager ctx) (mResourceManager (DeleteShader h ctx)).
Proof.
  destruct (DeleteShader_cases h ctx) as [(-> & _)|(p & s & _ & _ & _ & _ & [-> | ->])].
  - apply laterResources_refl.
  - eapply laterResources_trans;
      [apply (laterResources_updShader (SetMarkForDeletion true) p); intros ?;
       by repeat split|].
    unfold laterResources. simpl. split.
    { intros h' e. rewrite lookup_delete_Some. tauto. }
    split; [|done].
    intros q s'. rewrite lookup_delete_Some. intros [_ H].
    eauto using sameShaderLater_refl.
  - eapply laterResources_trans;
      [apply (laterResources_updShader (SetMarkForDeletion true) p); intros ?;
       by repeat split|].
    unfold laterResources. simpl.
    repeat split; eauto using sameShaderLater_refl. set_solver.
Qed.

Lemma laterResources_CompileShader h ctx :
  laterResources (mResourceManager ctx) (mResourceManager (CompileShader h ctx)).
Proof.
  destruct (CompileShader_cases h ctx) as [(-> & _)|(p & ->)].
  - apply laterResources_refl.
  - eapply laterResources_trans; [apply laterResources_CreateShaderCompiler|].
    simpl. apply laterResources_updShader. intros s. apply Shader_CompileShader_later.
Qed.

Context {limits : FloatLimits}.

Lemma GetShaderPrecisionFormat_sameButErrors shadertype precisiontype
    (range : GLint * GLint) (precision : GLint) ctx :
  sameButErrors
    (outPrecisionContext
       (GetShaderPrecisionFormat shadertype precisiontype range precision ctx)) ctx.
Proof.
  unfold GetShaderPrecisionFormat, HasShaderCompiler.
  destruct (mCompilerSupport ctx); simpl; [|done].
  repeat (case_match; simpl); done.
Qed.

(** A call either changes nothing but the error slot or is one of the
    four that can change more. *)
Lemma run_cases (c : Call) ctx :
  sameButErrors (run c ctx) ctx
  ∨ (∃ h, run c ctx = CompileShader h ctx)
  ∨ (∃ h, run c ctx = DeleteShader h ctx)
  ∨ run c ctx = ReleaseShaderCompiler ctx
  ∨ run c ctx = CreateShaderCompiler ctx.
Proof.
  destruct c; simpl; eauto 6.
  - left. apply GetShaderiv_sameButErrors.
  - left. apply GetShaderInfoLog_sameButErrors.
  - left. apply GetShaderSource_sameButErrors.
  - left. apply GetShaderPrecisionFormat_sameButErrors.
  - left. done.
Qed.

Lemma laterResources_run (c : Call) ctx :
  laterResources (mResourceManager ctx) (mResourceManager (run c ctx)).
Proof.
  destruct (run_cases c ctx) as [(-> & _)|[[h ->]|[[h ->]|[-> | ->]]]].
  - apply laterResources_refl.
  - apply laterResources_CompileShader.
  - apply laterResources_DeleteShader.
  - destruct (ReleaseShaderCompiler_cases ctx) as [-> _]. apply laterResources_refl.
  - apply laterResources_CreateShaderCompiler.
Qed.

(** X17: no sequence of calls of CompileShader, DeleteShader, the
    queries, ReleaseShaderCompiler and CreateShaderCompiler creates a
    handle, a shader or a program: every handle and every shader that is
    there afterwards was there before, the shader with the same kind,
    source text and reference count and, if it was marked for deletion,
    still marked; the shading-object count is the same, and whatever was
    in the purge list is still in it. *)
Theorem calls_create_nothing (calls : list Call) ctx :
  laterResources (mResourceManager ctx) (mResourceManager (runAll calls ctx)).
Proof.
  unfold runAll. revert ctx. induction calls as [|c calls IH]; intros ctx; simpl.
  - apply laterResources_refl.
  - eapply laterResources_trans; [apply laterResources_run|apply IH].
Qed.

(** ** Invariants of sequences of calls *)

Lemma liveCompilerBound_from ctx ctx' :
  mShaderCompiler ctx' = None ∨ mShaderCompiler ctx' = mShaderCompiler ctx →
  (∀ i s', mShaderArray (mResourceManager ctx') !! i = Some s' →
     ∃ s, mShaderArray (mResourceManager ctx) !! i = Some s
          ∧ compilerRef s' = compilerRef s) →
  (∀ i g, mShaderProgramArray (mResourceManager ctx') !! i = Some g →
          mShaderProgramArray (mResourceManager ctx) !! i = Some g) →
  liveCompilerBound ctx → liveCompilerBound ctx'.
Proof.
  intros Hcomp Hsh Hpr Hb c Hc.
  destruct Hcomp as [Hnone|Hsame]; [congruence|].
  rewrite Hsame in Hc. destruct (Hb c Hc) as [Hbs Hbp]. split.
  - intros i s' Hs'. destruct (Hsh _ _ Hs') as (s & Hs & ->). eauto.
  - intros i g Hg. eauto.
Qed.

Lemma liveCompilerBound_sameButErrors ctx ctx' :
  sameButErrors ctx' ctx → liveCompilerBound ctx → liveCompilerBound ctx'.
Proof.
  intros (Hrm & Hc & _). apply liveCompilerBound_from; rewrite ?Hrm; eauto.
Qed.

Lemma liveCompilerBound_CreateShaderCompiler ctx :
  liveCompilerBound ctx → liveCompilerBound (CreateShaderCompiler ctx).
Proof.
  intros Hb. unfold CreateShaderCompiler.
  destruct (mShaderCompiler ctx) eqn:E; [done|].
  intros c. simpl. intros [= <-]. split.
  - intros i s. rewrite lookup_fmap.
    destruct (mShaderArray (mResourceManager ctx) !! i); [|done].
    simpl. by intros [= <-].
  - intros i g. rewrite lookup_fmap.
    destruct (mShaderProgramArray (mResourceManager ctx) !! i); [|done].
    simpl. by intros [= <-].
Qed.

Lemma liveCompilerBound_updShader (f : Shader → Shader) p ctx :
  (∀ s, compilerRef (f s) = compilerRef s) →
  liveCompilerBound ctx →
  liveCompilerBound (withResourceManager (updShader f p (mResourceManager ctx)) ctx).
Proof.
  intros Hf. apply liveCompilerBound_from; simpl; [eauto| |eauto].
  intros i s'. destruct (decide (p = i)) as [->|Hne].
  - rewrite lookup_alter_eq. destruct (mShaderArray _ !! i) as [s|]; [|done].
    simpl. intros [= <-]. eauto.
  - rewrite lookup_alter_ne by done. eauto.
Qed.

Lemma liveCompilerBound_run (c : Call) ctx :
  liveCompilerBound ctx → liveCompilerBound (run c ctx).
Proof.
  intros Hb.
  destruct (run_cases c ctx) as [Hsame|[[h ->]|[[h ->]|[-> | ->]]]].
  - by apply (liveCompilerBound_sameButErrors ctx).
  - destruct (CompileShader_cases h ctx) as [Hsame|(p & ->)].
    + by apply (liveCompilerBound_sameButErrors ctx).
    + apply liveCompilerBound_updShader.
      * intros s. apply Shader_CompileShader_later.
      * by apply liveCompilerBound_CreateShaderCompiler.
  - destruct (DeleteShader_cases h ctx)
      as [Hsame|(p & s & _ & _ & _ & Hc & Hrm)].
    + by apply (liveCompilerBound_sameButErrors ctx).
    + revert Hb. apply liveCompilerBound_from; [eauto| |].
      * intros i s'. destruct Hrm as [-> | ->]; simpl.
        -- rewrite lookup_delete_Some. intros [Hne Hs'].
           rewrite lookup_alter_ne in Hs' by done. eauto.
        -- destruct (decide (p = i)) as [->|Hne].
           ++ rewrite lookup_alter_eq.
              destruct (mShaderArray _ !! i) as [s0|]; [|done].
              simpl. intros [= <-]. eauto.
           ++ rewrite lookup_alter_ne by done. eauto.
      * intros i g. by destruct Hrm as [-> | ->].
  - destruct (ReleaseShaderCompiler_cases ctx) as [Hrm Hc].
    revert Hb. apply liveCompilerBound_from; rewrite ?Hrm; eauto.
  - by apply liveCompilerBound_CreateShaderCompiler.
Qed.

(** X18: if every shader and every program refers to the compiler of the
    context whenever the context has one, then so it is after any sequence
    of calls of CompileShader, DeleteShader, the queries,
    ReleaseShaderCompiler and CreateShaderCompiler. *)
Theorem calls_keep_binding (calls : list Call) ctx :
  liveCompilerBound ctx → liveCompilerBound (runAll calls ctx).
Proof.
  unfold runAll. revert ctx. induction calls as [|c calls IH]; intros ctx Hb; simpl.
  - done.
  - apply IH. by apply liveCompilerBound_run.
Qed.

Lemma namespaceSound_same_keys rm rm' :
  mShadingObjectPool rm' = mShadingObjectPool rm →
  (∀ i, is_Some (mShaderArray rm !! i) → is_Some (mShaderArray rm' !! i)) →
  namespaceSound rm → namespaceSound rm'.
Proof.
  intros Hpool Hkeys [Hlive Hone]. unfold namespaceSound. rewrite Hpool. split.
  - intros h e He Ht Hi. apply Hkeys. eauto.
  - done.
Qed.

Lemma namespaceSound_updShader (f : Shader → Shader) p rm :
  namespaceSound rm → namespaceSound (updShader f p rm).
Proof.
  apply namespaceSound_same_keys; [done|]. simpl. intros i.
  destruct (decide (p = i)) as [->|Hne].
  - rewrite lookup_alter_eq. by rewrite fmap_is_Some.
  - by rewrite lookup_alter_ne.
Qed.

Lemma namespaceSound_CreateShaderCompiler ctx :
  namespaceSound (mResourceManager ctx) →
  namespaceSound (mResourceManager (CreateShaderCompiler ctx)).
Proof.
  unfold CreateShaderCompiler. destruct (mShaderCompiler ctx); [done|].
  apply namespaceSound_same_keys; [done|]. simpl. intros i.
  rewrite lookup_fmap. by rewrite fmap_is_Some.
Qed.

Lemma namespaceSound_freed h p rm :
  mShadingObjectPool rm !! h = Some (mkShadingNamespace SHADER_ID p) → p ≠ 0%N →
  namespaceSound rm →
  namespaceSound (DeallocateShader p (EraseShadingObject h rm)).
Proof.
  intros He Hp0 [Hlive Hone]. unfold namespaceSound. simpl. split.
  - intros h' e. rewrite lookup_delete_Some. intros [Hne He'] Ht Hi.
    rewrite lookup_delete_ne; [eauto|].
    intros Heq. apply Hne. by apply (Hone h h' _ e He He').
  - intros h1 h2 e1 e2. rewrite !lookup_delete_Some. intros [_ H1] [_ H2]. eauto.
Qed.

Lemma namespaceSound_run (c : Call) ctx :
  namespaceSound (mResourceManager ctx) → namespaceSound (mResourceManager (run c ctx)).
Proof.
  intros Hn.
  destruct (run_cases c ctx) as [(-> & _)|[[h ->]|[[h ->]|[-> | ->]]]]; [done| | | |].
  - destruct (CompileShader_cases h ctx) as [(-> & _)|(p & ->)]; [done|].
    simpl. apply namespaceSound_updShader. by apply namespaceSound_CreateShaderCompiler.
  - destruct (DeleteShader_cases h ctx)
      as [(-> & _)|(p & s & He & Hp0 & _ & _ & [-> | ->])]; [done| |].
    + apply (namespaceSound_freed h p); [done|done|].
      by apply namespaceSound_updShader.
    + revert Hn. apply namespaceSound_same_keys; [done|]. simpl. intros i.
      destruct (decide (p = i)) as [->|Hne].
      * rewrite lookup_alter_eq. by rewrite fmap_is_Some.
      * by rewrite lookup_alter_ne.
  - by destruct (ReleaseShaderCompiler_cases ctx) as [-> _].
  - by apply namespaceSound_CreateShaderCompiler.
Qed.

Lemma namespaceSound_null_with_error h ctx :
  namespaceSound (mResourceManager ctx) →
  (GetShaderPtr h ctx).1 = None → mErrors (GetShaderPtr h ctx).2 ≠ mErrors ctx.
Proof.
  intros [Hlive _] Hnull.
  destruct (unregistered_dec h (mResourceManager ctx)) as [Hu|(H0 & Hc & e & He)].
  - rewrite GetShaderPtr_unregistered by done. apply cons_ne.
  - rewrite (GetShaderPtr_registered _ _ e) in Hnull |- * by done.
    destruct (N.eqb_spec (arrayIndex e) 0) as [|Hi]; simpl in *; [apply cons_ne|].
    case_bool_decide as Ht; simpl in *; [|apply cons_ne].
    unfold GetShader in Hnull.
    rewrite bool_decide_eq_true_2 in Hnull by eauto. done.
Qed.

(** X19: if every shader entry of the pool leads to a shader of the
    shader array and no two handles share one, then so it is after any
    sequence of calls of CompileShader, DeleteShader, the queries,
    ReleaseShaderCompiler and CreateShaderCompiler, and in the context
    that the sequence leaves GetShaderPtr returns the null pointer only
    together with an error. *)
Theorem calls_keep_namespace (calls : list Call) ctx :
  namespaceSound (mResourceManager ctx) →
  let ctx' := runAll calls ctx in
  namespaceSound (mResourceManager ctx')
  ∧ (∀ h, (GetShaderPtr h ctx').1 = None →
          mErrors (GetShaderPtr h ctx').2 ≠ mErrors ctx').
Proof.
  intros Hn ctx'.
  assert (Hn' : namespaceSound (mResourceManager ctx')).
  { subst ctx'. unfold runAll. revert ctx Hn.
    induction calls as [|c calls IH]; intros ctx Hn; simpl; [done|].
    apply IH. by apply namespaceSound_run. }
  split; [done|]. intros h. by apply namespaceSound_null_with_error.
Qed.

(** ** The precision query *)

(** X12: GetShaderPrecisionFormat changes nothing of the context but the
    error slot.  It checks compiler support, then the shader type, then
    the precision type: without support it only records
    GL_INVALID_OPERATION, and with support and a shader type that is
    neither vertex nor fragment it only records GL_INVALID_ENUM, whatever
    the precision type.  Whenever it records an error, range and precision
    are as the caller passed them; when it records none, the precision
    type is one of the six and the two ranges are equal. *)
Theorem GetShaderPrecisionFormat_failure shadertype precisiontype
    (range : GLint * GLint) (precision : GLint) ctx :
  let r := GetShaderPrecisionFormat shadertype precisiontype range precision ctx in
  sameButErrors (outPrecisionContext r) ctx
  ∧ (mCompilerSupport ctx = false →
     r = mkPrecisionQuery range precision (RecordError GL_INVALID_OPERATION ctx))
  ∧ (mCompilerSupport ctx = true →
     shadertype ≠ GL_VERTEX_SHADER → shadertype ≠ GL_FRAGMENT_SHADER →
     r = mkPrecisionQuery range precision (RecordError GL_INVALID_ENUM ctx))
  ∧ (mErrors (outPrecisionContext r) ≠ mErrors ctx →
     outRange r = range ∧ outPrecision r = precision)
  ∧ (mErrors (outPrecisionContext r) = mErrors ctx →
     outPrecisionContext r = ctx
     ∧ precisiontype ∈ floatPrecisions ++ intPrecisions
     ∧ (outRange r).1 = (outRange r).2).
Proof.
  intros r. subst r.
  split; [apply GetShaderPrecisionFormat_sameButErrors|].
  unfold GetShaderPrecisionFormat, HasShaderCompiler.
  split; [by intros ->|].
  split.
  { intros -> Hv Hf. simpl. by rewrite !(proj2 (Z.eqb_neq _ _)) by done. }
  destruct (mCompilerSupport ctx); simpl.
  2:{ split; [done|]. intros H. by apply cons_ne in H. }
  destruct (negb (shadertype =? GL_VERTEX_SHADER)
            && negb (shadertype =? GL_FRAGMENT_SHADER)); simpl.
  { split; [done|]. intros H. by apply cons_ne in H. }
  unfold floatPrecisions, intPrecisions. simpl.
  destruct (Z.eqb_spec precisiontype GL_LOW_FLOAT) as [->|?]; simpl;
    [split; [done|]; intros _; split; [done|]; split; [|done];
     rewrite !elem_of_cons; auto 10|].
  destruct (Z.eqb_spec precisiontype GL_MEDIUM_FLOAT) as [->|?]; simpl;
    [split; [done|]; intros _; split; [done|]; split; [|done];
     rewrite !elem_of_cons; auto 10|].
  destruct (Z.eqb_spec precisiontype GL_HIGH_FLOAT) as [->|?]; simpl;
    [split; [done|]; intros _; split; [done|]; split; [|done];
     rewrite !elem_of_cons; auto 10|].
  destruct (Z.eqb_spec precisiontype GL_LOW_INT) as [->|?]; simpl;
    [split; [done|]; intros _; split; [done|]; split; [|done];
     rewrite !elem_of_cons; auto 10|].
  destruct (Z.eqb_spec precisiontype GL_MEDIUM_INT) as [->|?]; simpl;
    [split; [done|]; intros _; split; [done|]; split; [|done];
     rewrite !elem_of_cons; auto 10|].
  destruct (Z.eqb_spec precisiontype GL_HIGH_INT) as [->|?]; simpl;
    [split; [done|]; intros _; split; [done|]; split; [|done];
     rewrite !elem_of_cons; auto 10|].
  split; [done|]. intros H. by apply cons_ne in H.
Qed.

End MoreFacts.

(** ** Instances of the further theorems with hypotheses *)

Lemma exResources_sound : namespaceSound exResources.
Proof.
  unfold namespaceSound, exResources. simpl. split.
  - intros h e He Ht Hi.
    rewrite !lookup_insert_Some, lookup_singleton_Some in He.
    destruct He as [[_ <-]|[_ [[_ <-]|[_ [_ <-]]]]]; simpl in *;
      try done; vm_compute; eauto.
  - intros h1 h2 e1 e2 H1 H2 Ht1 Ht2 Hi _.
    rewrite !lookup_insert_Some, lookup_singleton_Some in H1, H2.
    destruct H1 as [[<- <-]|[_ [[<- <-]|[_ [<- <-]]]]]; try done;
      destruct H2 as [[<- <-]|[_ [[<- <-]|[_ [<- <-]]]]]; done.
Qed.

Lemma exAllocator_contract : allocatorContract exAllocateShader exPushShadingObject.
Proof.
  split.
  - intros rm res rm'. unfold exAllocateShader. intros [= <- <-]. split.
    + intros Heq.
      apply (is_fresh ({[ 0%N ]} ∪ dom (mShaderArray rm))).
      rewrite Heq. apply elem_of_union_l. by apply elem_of_singleton.
    + simpl. rewrite lookup_insert_eq. eauto.
  - intros e rm h rm'. unfold exPushShadingObject. intros [= <- <-]. simpl.
    split; [lia|]. split; [lia|]. split; [apply lookup_insert_eq|done].
Qed.

Lemma exContextBound_bound : liveCompilerBound exContextBound.
Proof.
  apply liveCompilerBound_CreateShaderCompiler. intros c Hc. discriminate Hc.
Qed.

Lemma length_then_string_witness :
  ((GetShaderPtr 1 exContext).1 = Some 1%N ∧ shaderAt 1 exContext = Some exVertex)
  ∧ peek (outBuffer
            (GetShaderInfoLog 1 (GetShaderiv 1 GL_INFO_LOG_LENGTH 7 exContext).1
               (Some 7) exBuffer (GetShaderiv 1 GL_INFO_LOG_LENGTH 7 exContext).2))
         (List.length ["e"; "r"; "r"]%byte + 1)
    = (["e"; "r"; "r"] ++ ["000"])%byte.
Proof.
  assert (H1 : (GetShaderPtr 1 exContext).1 = Some 1%N) by (vm_compute; reflexivity).
  assert (H2 : shaderAt 1 exContext = Some exVertex) by (vm_compute; reflexivity).
  split; [done|].
  destruct (length_then_string 1 exContext 1 exVertex ["e"; "r"; "r"]%byte 7
              (Some 7) exBuffer H1 H2) as [Hlog _].
  destruct (Hlog eq_refl) as (_ & Hpeek & _). exact Hpeek.
Defined.

Lemma DeleteShader_freed_handle_witness :
  ((GetShaderPtr 1 exContext).1 = Some 1%N ∧ shaderAt 1 exContext = Some exVertex
   ∧ FreeForDeletion (SetMarkForDeletion true exVertex) = true)
  ∧ GetShaderPtr 1 (DeleteShader 1 exContext)
    = (None, RecordError GL_INVALID_VALUE (DeleteShader 1 exContext)).
Proof.
  assert (H1 : (GetShaderPtr 1 exContext).1 = Some 1%N) by (vm_compute; reflexivity).
  assert (H2 : shaderAt 1 exContext = Some exVertex) by (vm_compute; reflexivity).
  assert (H3 : FreeForDeletion (SetMarkForDeletion true exVertex) = true) by reflexivity.
  split; [done|].
  destruct (DeleteShader_freed_handle 1 exContext 1 exVertex H1 H2 H3) as [Hgone _].
  exact Hgone.
Defined.

Lemma DeleteShader_then_GetShaderiv_witness :
  ((GetShaderPtr 3 exContext).1 = Some 2%N ∧ shaderAt 2 exContext = Some exFragment
   ∧ FreeForDeletion (SetMarkForDeletion true exFragment) = false)
  ∧ (GetShaderiv 3 GL_DELETE_STATUS 7 (DeleteShader 3 exContext)).1 = GL_TRUE.
Proof.
  assert (H1 : (GetShaderPtr 3 exContext).1 = Some 2%N) by (vm_compute; reflexivity).
  assert (H2 : shaderAt 2 exContext = Some exFragment) by (vm_compute; reflexivity).
  assert (H3 : FreeForDeletion (SetMarkForDeletion true exFragment) = false)
    by reflexivity.
  split; [done|].
  destruct (DeleteShader_then_GetShaderiv 3 exContext 2 exFragment 7 H1 H2 H3)
    as [Hstatus _].
  exact Hstatus.
Defined.

Lemma CompileShader_then_status_witness :
  (mCompilerSupport exContextBound = true ∧ liveCompilerBound exContextBound
   ∧ (GetShaderPtr 1 exContextBound).1 = Some 1%N
   ∧ shaderAt 1 exContextBound = Some (SetShaderCompiler (Some 0%nat) exVertex))
  ∧ GetShaderiv 1 GL_COMPILE_STATUS 7 (CompileShader 1 exContextBound)
    = (GL_TRUE, CompileShader 1 exContextBound).
Proof.
  assert (H1 : mCompilerSupport exContextBound = true) by reflexivity.
  assert (H2 : (GetShaderPtr 1 exContextBound).1 = Some 1%N)
    by (vm_compute; reflexivity).
  assert (H3 : shaderAt 1 exContextBound = Some (SetShaderCompiler (Some 0%nat) exVertex))
    by (vm_compute; reflexivity).
  split; [split; [done|]; split; [apply exContextBound_bound|done]|].
  destruct (CompileShader_then_status 1 exContextBound 1
              (SetShaderCompiler (Some 0%nat) exVertex) ["a"; "b"; "c"]%byte 7
              H1 exContextBound_bound H2 H3 eq_refl) as (_ & _ & _ & Hstatus).
  exact Hstatus.
Defined.

Lemma ShaderSource_sets_witness :
  (mCompilerSupport exContext = true
   ∧ (GetShaderPtr 1 exContext).1 = Some 1%N ∧ shaderAt 1 exContext = Some exVertex
   ∧ 0 ≤ 2)
  ∧ shaderAt 1 (ShaderSource Shader_SetShaderSource 1 2
                  [["a"; "b"; "000"; "z"]; ["c"; "d"]]%byte (Some [-1; 1]) exContext)
    = Some (Shader_SetShaderSource 2 [["a"; "b"; "000"; "z"]; ["c"; "d"]]%byte
              (Some [-1; 1]) exVertex).
Proof.
  assert (H1 : mCompilerSupport exContext = true) by reflexivity.
  assert (H2 : (GetShaderPtr 1 exContext).1 = Some 1%N) by (vm_compute; reflexivity).
  assert (H3 : shaderAt 1 exContext = Some exVertex) by (vm_compute; reflexivity).
  assert (H4 : 0 ≤ 2) by lia.
  split; [done|].
  destruct (ShaderSource_sets Shader_SetShaderSource 1 2
              [["a"; "b"; "000"; "z"]; ["c"; "d"]]%byte (Some [-1; 1])
              exContext 1 exVertex H1 H2 H3 H4) as [Hset _].
  exact Hset.
Defined.

Lemma CreateShader_then_query_witness :
  allocatorContract exAllocateShader exPushShadingObject
  ∧ ∃ h ctx' p s',
      CreateShader exAllocateShader exPushShadingObject GL_FRAGMENT_SHADER exContextBound
      = Some (h, ctx')
      ∧ h ≠ 0%N
      ∧ mErrors ctx' = mErrors exContextBound
      ∧ GetShaderPtr h ctx' = (Some p, ctx')
      ∧ shaderAt p ctx' = Some s'
      ∧ compilerRef s' = mShaderCompiler exContextBound
      ∧ mShaderCompiler ctx' = mShaderCompiler exContextBound
      ∧ (GetShaderiv h GL_SHADER_TYPE 7 ctx').1 = GL_FRAGMENT_SHADER.
Proof.
  split; [apply exAllocator_contract|].
  destruct (CreateShader_then_query exAllocateShader exPushShadingObject
              GL_FRAGMENT_SHADER exContextBound 7 exAllocator_contract) as [Hvalid _].
  exact (Hvalid (or_intror eq_refl)).
Defined.

Lemma calls_keep_binding_witness :
  liveCompilerBound exContextBound
  ∧ liveCompilerBound (runAll (limits := exampleFloatLimits) exCalls exContextBound).
Proof.
  split; [apply exContextBound_bound|].
  exact (calls_keep_binding (limits := exampleFloatLimits) exCalls exContextBound
           exContextBound_bound).
Defined.

Lemma calls_keep_namespace_witness :
  namespaceSound (mResourceManager exContext)
  ∧ namespaceSound
      (mResourceManager (runAll (limits := exampleFloatLimits) exCalls exContext)).
Proof.
  split; [apply exResources_sound|].
  destruct (calls_keep_namespace (limits := exampleFloatLimits) exCalls exContext
              exResources_sound) as [Hsound _].
  exact Hsound.
Defined.
